(** * Ingestion notebook (framework/ingestion/10_ingestion_dbx.py)

    A shallow embedding of the notebook's two functions, [detect_issues] and
    [run_ingestion], together with the Python built-ins they call.

    Modelling conventions
    - The text of a csv field is a Rocq [string] whose characters are the
      code points 0..255; whitespace and digit classes are CPython's,
      restricted to that range.  Field text outside that range is not
      represented.
    - The label [ENV] and the summary built around it are lists of code
      points: a label read from the environment may hold any code point, a
      lone surrogate included, and whether such a text can be printed or
      written to the log depends on the encoding.
    - A dict read with [.get] is a [gmap]; the [issues] dict, whose three keys
      are fixed, is a record; the [seen_ids] set is a [gset].
    - Exceptions are values of [exn]; fallible code returns a [result].
    - The file system is a finite map from relative paths to nodes (a
      directory, or a regular file with its bytes), next to the text printed
      so far; symbolic links, permissions and file metadata (what
      [shutil.copy2] carries over besides the bytes) are not represented.
    - The csv module is not modelled: reading the source into rows is a
      parameter of [run_ingestion]. *)

From Stdlib Require Import ZArith String Ascii List Lia.
From stdpp Require Import base option gmap sets list strings pretty.

Local Open Scope string_scope.
Local Open Scope list_scope.
Local Open Scope Z_scope.
#[local] Set Warnings "-clear-no-such-hyp".

(** ** Exceptions and results *)

Inductive exn : Type :=
  | ValueError
  | TypeError
  | AttributeError
  | FileNotFoundError (msg : string)
  | FileExistsError
  | NotADirectoryError
  | IsADirectoryError
  | SameFileError
  | UnicodeDecodeError
  | UnicodeEncodeError
  | CsvError.

Inductive result (A : Type) : Type :=
  | Ok (a : A)
  | Raise (e : exn).
Arguments Ok {A} a.
Arguments Raise {A} e.

(** Sequencing: an exception skips the rest.  With these instances stdpp's
    [x ← m; k] notation reads as Python's statement sequence. *)
#[global] Instance result_ret : MRet result := fun _ a => Ok a.
#[global] Instance result_bind : MBind result := fun _ _ k m =>
  match m with
  | Ok a => k a
  | Raise e => Raise e
  end.

(** ** Python values found in a row *)

Inductive value : Type :=
  | VNone
  | VStr (s : string).

(** Truthiness: [None] and the empty string are falsy. *)
Definition truthy (v : value) : bool :=
  match v with
  | VNone => false
  | VStr EmptyString => false
  | VStr _ => true
  end.

(** [a or b] *)
Definition py_or (a b : value) : value := if truthy a then a else b.

(** A row of [csv.DictReader]: column name to string, or to [None] where the
    record was shorter than the header. *)
Abbreviation row := (gmap string value).

(** [r.get(k)] and [r.get(k, d)] *)
Definition dict_get (r : row) (k : string) : value := default VNone (r !! k).
Definition dict_get_default (r : row) (k : string) (d : value) : value :=
  default d (r !! k).

(** ** [str.strip()] *)

Definition code (c : ascii) : Z := Z.of_N (N_of_ascii c).

(** [Py_UNICODE_ISSPACE] on code points below 256. *)
Definition Py_UNICODE_ISSPACE (c : ascii) : bool :=
  let n := code c in
  ((9 <=? n) && (n <=? 13)) || ((28 <=? n) && (n <=? 32))
  || (n =? 133) || (n =? 160).

Fixpoint lstrip (s : string) : string :=
  match s with
  | EmptyString => EmptyString
  | String c s' => if Py_UNICODE_ISSPACE c then lstrip s' else s
  end.

Fixpoint rstrip (s : string) : string :=
  match s with
  | EmptyString => EmptyString
  | String c s' =>
      match rstrip s' with
      | EmptyString => if Py_UNICODE_ISSPACE c then EmptyString else String c EmptyString
      | t => String c t
      end
  end.

Definition strip (s : string) : string := rstrip (lstrip s).

(** The method call [v.strip()]: [None] has no such attribute. *)
Definition str_strip (v : value) : result string :=
  match v with
  | VStr s => Ok (strip s)
  | VNone => Raise AttributeError
  end.

(** ** [int(x)] for a string or [None]

    Follows [PyLong_FromUnicodeObject]: the text is first mapped to ASCII
    ([_PyUnicode_TransformDecimalAndSpaceToASCII]), then read in base 10 by
    [PyLong_FromString]. *)

Definition is_ascii (s : string) : bool :=
  forallb (fun c => code c <? 128) (list_ascii_of_string s).

(** Below 256 the only decimal digits are ASCII, so a character that is
    neither below 127 nor white space becomes ['?'] and ends the buffer. *)
Fixpoint transform_chars (s : string) : string :=
  match s with
  | EmptyString => EmptyString
  | String c s' =>
      if code c <? 127 then String c (transform_chars s')
      else if Py_UNICODE_ISSPACE c then String " " (transform_chars s')
      else String "?" EmptyString
  end.

Definition transform_decimal_and_space (s : string) : string :=
  if is_ascii s then s else transform_chars s.

(** [Py_ISSPACE]: the C-locale white space only. *)
Definition Py_ISSPACE (c : ascii) : bool :=
  let n := code c in ((9 <=? n) && (n <=? 13)) || (n =? 32).

Fixpoint skip_space (s : string) : string :=
  match s with
  | EmptyString => EmptyString
  | String c s' => if Py_ISSPACE c then skip_space s' else s
  end.

Definition digit_value (c : ascii) : option Z :=
  let n := code c in
  if (48 <=? n) && (n <=? 57) then Some (n - 48) else None.

Definition is_underscore (c : ascii) : bool := code c =? 95.

(** The digit scan of [PyLong_FromString]: digits and single underscores;
    [prev] is the character read last, [digits] counts the digits. *)
Fixpoint scan_digits (prev : ascii) (acc digits : Z) (s : string)
  : result (Z * Z * string) :=
  let stop :=
    if is_underscore prev then Raise ValueError else Ok (acc, digits, s) in
  match s with
  | EmptyString => stop
  | String c s' =>
      if is_underscore c then
        if is_underscore prev then Raise ValueError
        else scan_digits c acc digits s'
      else
        match digit_value c with
        | Some d => scan_digits c (10 * acc + d) (digits + 1) s'
        | None => stop
        end
  end.

Definition MAX_STR_DIGITS_THRESHOLD : Z := 640.

Section Interpreter.

(** [sys.get_int_max_str_digits()]: 4300 unless reconfigured, 0 when the
    limit is switched off (or the interpreter predates it). *)
Variable max_str_digits : Z.

Definition PyLong_FromString (buf : string) : result Z :=
  let s := skip_space buf in
  let '(sign, s) :=
    match s with
    | String "+" s' => (1, s')
    | String "-" s' => (-1, s')
    | _ => (1, s)
    end in
  match s with
  | String "_" _ => Raise ValueError
  | _ =>
      '(acc, digits, rest) ← scan_digits zero 0 0 s;
      if (MAX_STR_DIGITS_THRESHOLD <? digits)
         && (0 <? max_str_digits) && (max_str_digits <? digits)
      then Raise ValueError
      else if digits =? 0 then Raise ValueError
      else
        match skip_space rest with
        | EmptyString => Ok (sign * acc)
        | _ => Raise ValueError
        end
  end.

Definition py_int (v : value) : result Z :=
  match v with
  | VNone => Raise TypeError
  | VStr s => PyLong_FromString (transform_decimal_and_space s)
  end.

(** ** [detect_issues] *)

Record issues : Type := mk_issues {
  duplicate_ids : Z;
  missing_name : Z;
  underage : Z
}.

Definition incr_duplicate_ids (i : issues) : issues :=
  mk_issues (duplicate_ids i + 1) (missing_name i) (underage i).
Definition incr_missing_name (i : issues) : issues :=
  mk_issues (duplicate_ids i) (missing_name i + 1) (underage i).
Definition incr_underage (i : issues) : issues :=
  mk_issues (duplicate_ids i) (missing_name i) (underage i + 1).

(** The locals that live across loop iterations. *)
Record locals : Type := mk_locals {
  l_issues : issues;
  l_seen_ids : gset string
}.

(** [issues] and [seen_ids] as the function creates them. *)
Definition fresh_locals : locals := mk_locals (mk_issues 0 0 0) ∅.

(** One iteration of [for r in rows]. *)
Definition loop_body (st : locals) (r : row) : result locals :=
  cid ← str_strip (py_or (dict_get r "customer_id") (VStr ""));
  name ← str_strip (py_or (dict_get r "name") (VStr ""));
  let st :=
    if bool_decide (cid ∈ l_seen_ids st)
    then mk_locals (incr_duplicate_ids (l_issues st)) (l_seen_ids st)
    else mk_locals (l_issues st) ({[cid]} ∪ l_seen_ids st) in
  let st :=
    if String.eqb name ""
    then mk_locals (incr_missing_name (l_issues st)) (l_seen_ids st)
    else st in
  match py_int (dict_get_default r "age" (VStr "0")) with
  | Ok n =>
      if n <? 18
      then Ok (mk_locals (incr_underage (l_issues st)) (l_seen_ids st))
      else Ok st
  | Raise ValueError =>
      Ok (mk_locals (incr_underage (l_issues st)) (l_seen_ids st))
  | Raise e => Raise e
  end.

Fixpoint loop (st : locals) (rows : list row) : result locals :=
  match rows with
  | [] => Ok st
  | r :: rows' => st' ← loop_body st r; loop st' rows'
  end.

Definition detect_issues (rows : list row) : result issues :=
  st ← loop fresh_locals rows;
  Ok (l_issues st).

End Interpreter.

(** ** [detect_issues] with its objects in a store

    The same function read at the level of Python objects: the [issues] dict
    and the [seen_ids] set are created in the store at each call and updated
    in place; the call returns a reference to the dict. *)

Inductive obj : Type :=
  | ODict (i : issues)
  | OSet (s : gset string).

(** A store is the list of the objects created so far; a reference is an
    index into it. *)
Definition heap (A : Type) : Type := list obj -> result A * list obj.

#[global] Instance heap_ret : MRet heap := fun _ a σ => (Ok a, σ).
#[global] Instance heap_bind : MBind heap := fun _ _ k m σ =>
  match m σ with
  | (Ok a, σ') => k a σ'
  | (Raise e, σ') => (Raise e, σ')
  end.

Definition heap_lift {A : Type} (r : result A) : heap A := fun σ => (r, σ).

Definition new (o : obj) : heap nat := fun σ => (Ok (length σ), (σ ++ [o])%list).

(** [d[k] += 1] on the dict at [l] *)
Definition dict_update (l : nat) (f : issues -> issues) : heap unit := fun σ =>
  match σ !! l with
  | Some (ODict i) => (Ok tt, <[l := ODict (f i)]> σ)
  | _ => (Raise TypeError, σ)
  end.

(** [x in s] for the set at [l] *)
Definition set_contains (l : nat) (x : string) : heap bool := fun σ =>
  match σ !! l with
  | Some (OSet s) => (Ok (bool_decide (x ∈ s)), σ)
  | _ => (Raise TypeError, σ)
  end.

(** [s.add(x)] for the set at [l] *)
Definition set_add (l : nat) (x : string) : heap unit := fun σ =>
  match σ !! l with
  | Some (OSet s) => (Ok tt, <[l := OSet ({[x]} ∪ s)]> σ)
  | _ => (Raise AttributeError, σ)
  end.

Section Objects.

Variable max_str_digits : Z.

Definition loop_body_obj (issues seen_ids : nat) (r : row) : heap unit :=
  cid ← heap_lift (str_strip (py_or (dict_get r "customer_id") (VStr "")));
  name ← heap_lift (str_strip (py_or (dict_get r "name") (VStr "")));
  dup ← set_contains seen_ids cid;
  (if dup : bool then dict_update issues incr_duplicate_ids
   else set_add seen_ids cid) ;;
  (if String.eqb name "" then dict_update issues incr_missing_name
   else mret tt) ;;
  match py_int max_str_digits (dict_get_default r "age" (VStr "0")) with
  | Ok n => if n <? 18 then dict_update issues incr_underage else mret tt
  | Raise ValueError => dict_update issues incr_underage
  | Raise e => heap_lift (Raise e)
  end.

Fixpoint loop_obj (issues seen_ids : nat) (rows : list row) : heap unit :=
  match rows with
  | [] => mret tt
  | r :: rows' => loop_body_obj issues seen_ids r ;; loop_obj issues seen_ids rows'
  end.

Definition detect_issues_obj (rows : list row) : heap nat :=
  issues ← new (ODict (mk_issues 0 0 0));
  seen_ids ← new (OSet ∅);
  loop_obj issues seen_ids rows ;;
  mret issues.

End Objects.

(** ** Text that is printed or written

    A text is the list of its code points.  [os.environ] decodes the
    environment with the surrogateescape handler, so a label may hold a lone
    surrogate (a code point in 0xD800..0xDFFF), which no strict encoder
    accepts. *)
Abbreviation text := (list Z).

(** A string of code points below 256 as a text. *)
Definition text_of (s : string) : text := code <$> list_ascii_of_string s.
#[global] Arguments text_of : simpl never.

(** ** Paths and the file system *)

(** A relative path is its list of components; [[]] is the working
    directory ([Path(".")]). *)
Abbreviation path := (list string).

Definition parent (p : path) : path := removelast p.
Definition joinpath (p : path) (name : string) : path := p ++ [name].
Definition basename (p : path) : string := List.last p "".

(** [str(p)] on POSIX. *)
Definition path_str (p : path) : string :=
  match p with
  | [] => "."
  | _ => String.concat "/" p
  end.

Inductive node : Type :=
  | Dir
  | File (content : string).

Record world : Type := mk_world {
  fs : gmap (list string) node;
  stdout : text
}.

Definition set_fs (w : world) (m : gmap (list string) node) : world :=
  mk_world m (stdout w).

(** What is at a path; the working directory always exists. *)
Definition stat (w : world) (p : path) : option node :=
  match p with
  | [] => Some Dir
  | _ => fs w !! p
  end.

Definition is_dir (w : world) (p : path) : bool :=
  match stat w p with Some Dir => true | _ => false end.
Definition is_file (w : world) (p : path) : bool :=
  match stat w p with Some (File _) => true | _ => false end.

(** Effectful code: the world is threaded through and survives an
    exception. *)
Definition io (A : Type) : Type := world -> result A * world.

#[global] Instance io_ret : MRet io := fun _ a w => (Ok a, w).
#[global] Instance io_bind : MBind io := fun _ _ k m w =>
  match m w with
  | (Ok a, w') => k a w'
  | (Raise e, w') => (Raise e, w')
  end.

Definition raise {A : Type} (e : exn) : io A := fun w => (Raise e, w).
Definition lift {A : Type} (r : result A) : io A := fun w => (r, w).

Definition no_such_file (p : path) : exn :=
  FileNotFoundError ("[Errno 2] No such file or directory: '" +:+ path_str p +:+ "'").

(** [os.mkdir(p)] *)
Definition os_mkdir (p : path) : io unit := fun w =>
  match stat w p with
  | Some _ => (Raise FileExistsError, w)
  | None =>
      match stat w (parent p) with
      | Some Dir => (Ok tt, set_fs w (<[p := Dir]> (fs w)))
      | Some (File _) => (Raise NotADirectoryError, w)
      | None => (Raise (no_such_file p), w)
      end
  end.

(** [Path.mkdir(parents=False, exist_ok=True)] *)
Definition mkdir_exist_ok (p : path) : io unit := fun w =>
  match os_mkdir p w with
  | (Ok u, w') => (Ok u, w')
  | (Raise (FileNotFoundError msg), w') => (Raise (FileNotFoundError msg), w')
  | (Raise e, w') => if is_dir w' p then (Ok tt, w') else (Raise e, w')
  end.

(** [Path.mkdir(parents=True, exist_ok=True)], by recursion on the path
    read from its last component: the tail of [rp] is the parent. *)
Fixpoint mkdir_parents_rev (rp : list string) : io unit := fun w =>
  match os_mkdir (rev rp) w with
  | (Ok u, w') => (Ok u, w')
  | (Raise (FileNotFoundError msg), w') =>
      match rp with
      | [] => (Raise (FileNotFoundError msg), w')
      | _ :: rp' => (mkdir_parents_rev rp' ;; mkdir_exist_ok (rev rp)) w'
      end
  | (Raise e, w') => if is_dir w' (rev rp) then (Ok tt, w') else (Raise e, w')
  end.

Definition Path_mkdir (p : path) : io unit := mkdir_parents_rev (rev p).

(** [p.exists()] *)
Definition Path_exists (p : path) : io bool := fun w =>
  (Ok (bool_decide (is_Some (stat w p))), w).

(** [open(p).read()] in binary. *)
Definition read_bytes (p : path) : io string := fun w =>
  match stat w p with
  | Some (File b) => (Ok b, w)
  | Some Dir => (Raise IsADirectoryError, w)
  | None => (Raise (no_such_file p), w)
  end.

(** Opening [p] for writing ([truncate]) or appending, then writing [data]. *)
Definition write_bytes (truncate : bool) (p : path) (data : string) : io unit :=
  fun w =>
  match stat w p with
  | Some Dir => (Raise IsADirectoryError, w)
  | Some (File old) =>
      (Ok tt, set_fs w (<[p := File (if truncate then data else old +:+ data)]> (fs w)))
  | None =>
      match stat w (parent p) with
      | Some Dir => (Ok tt, set_fs w (<[p := File data]> (fs w)))
      | Some (File _) => (Raise NotADirectoryError, w)
      | None => (Raise (no_such_file p), w)
      end
  end.

(** [shutil.copy2(src, dst)]: into [dst] when it is a directory; the
    content is read after the destination is resolved.  Only the bytes are
    followed: the permission bits and times that [copystat] then carries over
    have no place in [node]. *)
Definition copy2 (src dst : path) : io unit :=
  d ← (fun w => (Ok (if is_dir w dst then joinpath dst (basename src) else dst), w));
  if bool_decide (src = d) then raise SameFileError
  else b ← read_bytes src; write_bytes true d b.

Definition byte (n : Z) : ascii := ascii_of_N (Z.to_N n).

Definition is_surrogate (cp : Z) : bool := (55296 <=? cp) && (cp <=? 57343).

(** UTF-8 of one code point, one to four bytes; a surrogate has none, nor
    has a number outside 0..0x10FFFF, which no [str] holds. *)
Definition utf8_code_point (cp : Z) : option string :=
  if cp <? 0 then None
  else if cp <? 128 then Some (String (byte cp) EmptyString)
  else if cp <? 2048 then
    Some (String (byte (192 + cp / 64))
            (String (byte (128 + cp mod 64)) EmptyString))
  else if cp <? 65536 then
    if is_surrogate cp then None
    else Some (String (byte (224 + cp / 4096))
                 (String (byte (128 + cp / 64 mod 64))
                    (String (byte (128 + cp mod 64)) EmptyString)))
  else if cp <? 1114112 then
    Some (String (byte (240 + cp / 262144))
            (String (byte (128 + cp / 4096 mod 64))
               (String (byte (128 + cp / 64 mod 64))
                  (String (byte (128 + cp mod 64)) EmptyString))))
  else None.

(** [t.encode("utf-8")], with the strict error handler. *)
Fixpoint utf8_encode (t : text) : result string :=
  match t with
  | [] => Ok EmptyString
  | cp :: t' =>
      match utf8_code_point cp with
      | None => Raise UnicodeEncodeError
      | Some b => bs ← utf8_encode t'; Ok (b +:+ bs)
      end
  end.

Definition nl : string := String "010"%char EmptyString.

(** [sys.stdout.write(t)]: the text is encoded as a whole before any of it
    is written.  [encodes] tells the code points the stream can write, under
    its encoding and error handler. *)
Definition stdout_write (encodes : Z -> bool) (t : text) : io unit := fun w =>
  if forallb encodes t then (Ok tt, mk_world (fs w) (stdout w ++ t))
  else (Raise UnicodeEncodeError, w).

(** [print(x)] for a text [x]: the text, then the line end. *)
Definition print (encodes : Z -> bool) (t : text) : io unit :=
  stdout_write encodes t ;; stdout_write encodes (text_of nl).

(** [open(p, "a")]: a file that does not exist is created, empty. *)
Definition open_append (p : path) : io unit := fun w =>
  match stat w p with
  | Some Dir => (Raise IsADirectoryError, w)
  | Some (File _) => (Ok tt, w)
  | None =>
      match stat w (parent p) with
      | Some Dir => (Ok tt, set_fs w (<[p := File EmptyString]> (fs w)))
      | Some (File _) => (Raise NotADirectoryError, w)
      | None => (Raise (no_such_file p), w)
      end
  end.

(** [with open(p, "a", encoding="utf-8") as f: f.write(t)]: the file is
    opened before the text is encoded. *)
Definition append_text (p : path) (t : text) : io unit :=
  open_append p ;;
  data ← lift (utf8_encode t);
  write_bytes false p data.

(** ** The clock *)

Record datetime : Type := mk_datetime {
  year : Z; month : Z; day : Z; hour : Z; minute : Z; second : Z
}.

Fixpoint zeros (n : nat) : string :=
  match n with
  | O => EmptyString
  | S n' => String "0" (zeros n')
  end.

(** A non-negative number in decimal, left-padded with zeros to [width]. *)
Definition zfill (width : nat) (n : Z) : string :=
  let s := pretty n in zeros (width - String.length s) +:+ s.

(** [t.strftime("%Y%m%d_%H%M%S")], for a year of four digits, which is what
    the clock returns; how a smaller year is padded is left to the C library. *)
Definition strftime (t : datetime) : string :=
  zfill 4 (year t) +:+ zfill 2 (month t) +:+ zfill 2 (day t) +:+ "_"
  +:+ zfill 2 (hour t) +:+ zfill 2 (minute t) +:+ zfill 2 (second t).

(** ** Module-level configuration *)

(** [os.getenv(k, d)] *)
Definition os_getenv (environ : gmap string text) (k : string) (d : text) : text :=
  default d (environ !! k).

Definition resolve_ENV (environ : gmap string text) : text :=
  os_getenv environ "ENV" (text_of "dev").

Definition SOURCE_FILE : path := ["data"; "source"; "customers.csv"].
Definition LANDING_DIR : path := ["data"; "landing"].
Definition LOGS_DIR : path := ["logs"].

(** ** [run_ingestion] *)

(** The f-string: the label is the one field that is not a text of code
    points below 128. *)
Definition log_msg (ENV : text) (target_file : path) (nrows : Z)
    (iss : issues) (ts : string) : text :=
  text_of "[OK] Ingestion completed | ENV=" ++ ENV ++ text_of (nl
  +:+ "Source: " +:+ path_str SOURCE_FILE +:+ nl
  +:+ "Target: " +:+ path_str target_file +:+ nl
  +:+ "Rows ingested: " +:+ pretty nrows +:+ nl
  +:+ "Issues detected:" +:+ nl
  +:+ "  - Duplicate customer_id: " +:+ pretty (duplicate_ids iss) +:+ nl
  +:+ "  - Missing name: " +:+ pretty (missing_name iss) +:+ nl
  +:+ "  - Underage customers: " +:+ pretty (underage iss) +:+ nl
  +:+ "Timestamp: " +:+ ts +:+ nl
  +:+ "------------------------------------" +:+ nl).

Section Ingestion.

Variable max_str_digits : Z.

(** The code points [sys.stdout] can write. *)
Variable stdout_encodes : Z -> bool.

(** Decoding the source as UTF-8 and reading it with [csv.DictReader]
    ([list(reader)]); the csv module is taken as given.  Rows are maps from
    column names to a text or [None]; the list [DictReader] files under the
    key [None] for a record longer than the header is not represented. *)
Variable csv_rows : string -> result (list row).

(** The module global [ENV] and the instant returned by
    [datetime.utcnow()] are arguments. *)
Definition run_ingestion (ENV : text) (now : datetime) : io unit :=
  Path_mkdir LOGS_DIR ;;
  Path_mkdir LANDING_DIR ;;
  found ← Path_exists SOURCE_FILE;
  if negb found then
    raise (FileNotFoundError ("Source file not found: " +:+ path_str SOURCE_FILE))
  else
    content ← read_bytes SOURCE_FILE;
    rows ← lift (csv_rows content);
    issues ← lift (detect_issues max_str_digits rows);
    let ts := strftime now in
    let target_file := joinpath LANDING_DIR ("customers_" +:+ ts +:+ ".csv") in
    copy2 SOURCE_FILE target_file ;;
    let msg := log_msg ENV target_file (Z.of_nat (length rows)) issues ts in
    print stdout_encodes msg ;;
    append_text (joinpath LOGS_DIR "ingestion.log") msg.

End Ingestion.

(** ** Vocabulary of the statements *)

(** The text of a field, an absent or null field read as the empty string. *)
Definition text_or_empty (r : row) (k : string) : string :=
  match r !! k with
  | Some (VStr s) => s
  | _ => ""
  end.

Definition trimmed_id (r : row) : string := strip (text_or_empty r "customer_id").
Definition trimmed_name (r : row) : string := strip (text_or_empty r "name").

(** Rows whose trimmed name is empty. *)
Definition name_blank (r : row) : bool := String.eqb (trimmed_name r) "".

(** Rows whose age is counted: below 18, or not an integer literal. *)
Definition age_counted (max_str_digits : Z) (r : row) : bool :=
  match py_int max_str_digits (dict_get_default r "age" (VStr "0")) with
  | Ok n => n <? 18
  | Raise _ => true
  end.

(** A row whose [age] column is present but null. *)
Definition null_age (r : row) : Prop := r !! "age" = Some VNone.

#[global] Instance value_eq_dec : EqDecision value.
Proof. solve_decision. Defined.

#[global] Instance null_age_dec r : Decision (null_age r).
Proof. unfold null_age. apply _. Defined.

Definition count_rows (f : row -> bool) (rows : list row) : Z :=
  Z.of_nat (length (List.filter f rows)).

(** The locals after the two counters that cannot fail have been updated. *)
Definition after_id_and_name (st : locals) (r : row) : locals :=
  let st1 :=
    if bool_decide (trimmed_id r ∈ l_seen_ids st)
    then mk_locals (incr_duplicate_ids (l_issues st)) (l_seen_ids st)
    else mk_locals (l_issues st) ({[trimmed_id r]} ∪ l_seen_ids st) in
  if name_blank r
  then mk_locals (incr_missing_name (l_issues st1)) (l_seen_ids st1)
  else st1.

(** The locals after a whole iteration that did not raise. *)
Definition after_row (max_str_digits : Z) (st : locals) (r : row) : locals :=
  let st2 := after_id_and_name st r in
  if age_counted max_str_digits r
  then mk_locals (incr_underage (l_issues st2)) (l_seen_ids st2)
  else st2.

(** The distinct trimmed identifiers of a row sequence. *)
Definition distinct_ids (rows : list row) : gset string :=
  list_to_set (trimmed_id <$> rows).

(** ** Sample rows *)

(** The rows of the example given with the testable properties. *)
Definition example_rows : list row :=
  [ {[ "customer_id" := VStr "1"; "name" := VStr "Ann"; "age" := VStr "30" ]};
    {[ "customer_id" := VStr "1"; "name" := VStr ""; "age" := VStr "15" ]};
    {[ "customer_id" := VStr "2"; "name" := VStr "Bo"; "age" := VStr "abc" ]} ].

(** The row [csv.DictReader] builds from the record [1,Ann] under the
    header [customer_id,name,age]. *)
Definition short_row : row :=
  {[ "customer_id" := VStr "1"; "name" := VStr "Ann"; "age" := VNone ]}.

(** Three rows whose identifier is empty after trimming (blank, absent,
    null), then a repeated ["7"]. *)
Definition blank_id_rows : list row :=
  [ {[ "customer_id" := VStr "  "; "age" := VStr "40" ]};
    {[ "age" := VStr "41" ]};
    {[ "customer_id" := VNone; "age" := VStr "42" ]};
    {[ "customer_id" := VStr "7"; "age" := VStr "43" ]} ].

(** ** Vocabulary for [run_ingestion] *)

(** [LOGS_DIR / "ingestion.log"] *)
Definition LOG_FILE : path := joinpath LOGS_DIR "ingestion.log".

(** [LANDING_DIR / f"customers_{ts}.csv"] at the instant [now]. *)
Definition target_file (now : datetime) : path :=
  joinpath LANDING_DIR ("customers_" +:+ strftime now +:+ ".csv").

(** [w'] is [w] with, at most, new directories at some of the paths
    [allowed]: nothing else is created, changed or removed, and nothing is
    printed. *)
Definition adds_dirs (allowed : list path) (w w' : world) : Prop :=
  stdout w' = stdout w
  /\ forall q : path,
       fs w' !! q = fs w !! q
       \/ (fs w !! q = None /\ fs w' !! q = Some Dir /\ q ∈ allowed).

(** The path whose reversed components are [rp], and its ancestors. *)
Fixpoint ancestors_rev (rp : list string) : list path :=
  match rp with
  | [] => []
  | _ :: rp' => rev rp :: ancestors_rev rp'
  end.

(** Steps 8 and 9: print the summary, then append it to the log. *)
Definition emit (stdout_encodes : Z -> bool) (msg : text) : io unit :=
  print stdout_encodes msg ;; append_text LOG_FILE msg.

(** Where [shutil.copy2 src dst] writes. *)
Definition copy_destination (w : world) (src dst : path) : path :=
  if is_dir w dst then joinpath dst (basename src) else dst.

(** The log's content, empty when there is no log yet. *)
Definition log_content (w : world) : string :=
  match fs w !! LOG_FILE with
  | Some (File b) => b
  | _ => ""
  end.

(** The world once [msg] has been printed. *)
Definition printed (w : world) (msg : text) : world :=
  mk_world (fs w) (stdout w ++ msg ++ text_of nl).

(** The tree once [p] has been opened for appending. *)
Definition opened (f : gmap (list string) node) (p : path)
  : gmap (list string) node :=
  match f !! p with
  | Some _ => f
  | None => <[p := File ""]> f
  end.

(** A stream that writes every text, one that writes ASCII only, and the
    strict UTF-8 stream. *)
Definition any_stdout (cp : Z) : bool := true.
Definition ascii_stdout (cp : Z) : bool := (0 <=? cp) && (cp <? 128).
Definition utf8_stdout (cp : Z) : bool :=
  bool_decide (is_Some (utf8_code_point cp)).

(** A text UTF-8 can encode. *)
Definition utf8_encodable (t : text) : bool :=
  forallb (fun cp => bool_decide (is_Some (utf8_code_point cp))) t.

(** The message of the exception raised for a missing source. *)
Definition source_missing_msg : string :=
  "Source file not found: data/source/customers.csv".

(** What follows the label in the summary. *)
Definition summary_tail (target_file : path) (nrows : Z) (iss : issues)
    (ts : string) : string :=
  nl
  +:+ "Source: " +:+ path_str SOURCE_FILE +:+ nl
  +:+ "Target: " +:+ path_str target_file +:+ nl
  +:+ "Rows ingested: " +:+ pretty nrows +:+ nl
  +:+ "Issues detected:" +:+ nl
  +:+ "  - Duplicate customer_id: " +:+ pretty (duplicate_ids iss) +:+ nl
  +:+ "  - Missing name: " +:+ pretty (missing_name iss) +:+ nl
  +:+ "  - Underage customers: " +:+ pretty (underage iss) +:+ nl
  +:+ "Timestamp: " +:+ ts +:+ nl
  +:+ "------------------------------------" +:+ nl.

(** ** Sample worlds *)
Definition demo_csv (content : string) : result (list row) := Ok example_rows.
Definition demo_now : datetime := mk_datetime 2024 1 15 9 30 0.
Definition world_without_source : world :=
  mk_world {[ LOG_FILE := File "earlier entry"; LOGS_DIR := Dir ]} [].
(** A regular file named [logs] stands where the logs directory is wanted. *)
Definition world_logs_is_file : world :=
  mk_world {[ LOGS_DIR := File "" ]} [].
Definition world_with_source : world :=
  mk_world {[ SOURCE_FILE := File "customer_id,name,age";
              ["data"; "source"] := Dir; ["data"] := Dir;
              LOG_FILE := File "earlier entry"; LOGS_DIR := Dir ]} [].

(** The store [σ0] followed by the two objects of a call in progress. *)
Definition store_of (σ0 : list obj) (st : locals) : list obj :=
  σ0 ++ [ODict (l_issues st); OSet (l_seen_ids st)].

(** ** Vocabulary of the further properties *)

(** Every character of [s] is white space for [str.strip]. *)
Fixpoint all_space (s : string) : bool :=
  match s with
  | EmptyString => true
  | String c s' => Py_UNICODE_ISSPACE c && all_space s'
  end.

(** Two rows agree on the three columns the scan reads. *)
Definition same_fields (r r' : row) : Prop :=
  r !! "customer_id" = r' !! "customer_id"
  /\ r !! "name" = r' !! "name"
  /\ r !! "age" = r' !! "age".

(** The script run as a program: [ENV] is read from the environment when
    the module is loaded, then [run_ingestion()] is called. *)
Definition main (max_str_digits : Z) (stdout_encodes : Z -> bool)
    (csv_rows : string -> result (list row))
    (environ : gmap string text) (now : datetime) : io unit :=
  run_ingestion max_str_digits stdout_encodes csv_rows (resolve_ENV environ) now.

(** An instant whose year has four digits, as [datetime.utcnow()] returns. *)
Definition valid_datetime (t : datetime) : Prop :=
  1000 <= year t <= 9999 /\ 1 <= month t <= 12 /\ 1 <= day t <= 31
  /\ 0 <= hour t <= 23 /\ 0 <= minute t <= 59 /\ 0 <= second t <= 59.

(** The character of a decimal digit. *)
Definition digit_char (d : Z) : ascii := ascii_of_N (Z.to_N (48 + d)).

(** ** Vocabulary of the age test *)

(** The sign stage of [PyLong_FromString]. *)
Definition strip_sign (s : string) : Z * string :=
  match s with
  | EmptyString => (1, EmptyString)
  | String c s' =>
      if Ascii.eqb c "+" then (1, s')
      else if Ascii.eqb c "-" then (-1, s') else (1, s)
  end.

(** What [PyLong_FromString] does once the sign has been read. *)
Definition read_digits (max_str_digits sign : Z) (s : string) : result Z :=
  '(acc, digits, rest) ← scan_digits zero 0 0 s;
  if (MAX_STR_DIGITS_THRESHOLD <? digits)
     && (0 <? max_str_digits) && (max_str_digits <? digits)
  then Raise ValueError
  else if digits =? 0 then Raise ValueError
  else
    match skip_space rest with
    | EmptyString => Ok (sign * acc)
    | _ => Raise ValueError
    end.

(** A character no integer literal contains once it has reached
    [PyLong_FromString]: no digit, sign, underscore or C white space. *)
Definition bad_char (c : ascii) : bool :=
  negb (bool_decide (is_Some (digit_value c)) || Ascii.eqb c "+"
        || Ascii.eqb c "-" || is_underscore c || Py_ISSPACE c).

Fixpoint has_bad_char (s : string) : bool :=
  match s with
  | EmptyString => false
  | String c s' => bad_char c || has_bad_char s'
  end.

(** A character no integer literal contains: as above, the two white-space
    characters 133 and 160, which [int] reads as blanks, set apart. *)
Definition foreign_char (c : ascii) : bool :=
  bad_char c && negb ((127 <=? code c) && Py_UNICODE_ISSPACE c).

Fixpoint has_foreign_char (s : string) : bool :=
  match s with
  | EmptyString => false
  | String c s' => foreign_char c || has_foreign_char s'
  end.

Fixpoint all_digits (s : string) : bool :=
  match s with
  | EmptyString => true
  | String c s' => bool_decide (is_Some (digit_value c)) && all_digits s'
  end.

(** The number a digit string denotes, read after [acc]. *)
Fixpoint digits_value (acc : Z) (s : string) : Z :=
  match s with
  | EmptyString => acc
  | String c s' => digits_value (10 * acc + default 0 (digit_value c)) s'
  end.

(** White space as [int] sees it: the C white space, and the two characters
    133 and 160 that the transformation turns into blanks. *)
Definition int_blank (c : ascii) : bool :=
  Py_ISSPACE c || (code c =? 133) || (code c =? 160).

Fixpoint all_int_blank (s : string) : bool :=
  match s with
  | EmptyString => true
  | String c s' => int_blank c && all_int_blank s'
  end.

Fixpoint all_Py_ISSPACE (s : string) : bool :=
  match s with
  | EmptyString => true
  | String c s' => Py_ISSPACE c && all_Py_ISSPACE s'
  end.

(** What the transformation does to a character it keeps. *)
Definition to_ascii (c : ascii) : ascii := if code c <? 127 then c else " ".

Fixpoint map_string (f : ascii -> ascii) (s : string) : string :=
  match s with
  | EmptyString => EmptyString
  | String c s' => String (f c) (map_string f s')
  end.

(** * Facts about [detect_issues] *)

Section DetectFacts.

Variable max_str_digits : Z.

Lemma strip_or_empty (r : row) (k : string) :
  str_strip (py_or (dict_get r k) (VStr "")) = Ok (strip (text_or_empty r k)).
Proof.
  unfold dict_get, text_or_empty.
  destruct (r !! k) as [[|[|c s]]|]; reflexivity.
Qed.

Lemma loop_body_eq (st : locals) (r : row) :
  loop_body max_str_digits st r =
  let st2 := after_id_and_name st r in
  match py_int max_str_digits (dict_get_default r "age" (VStr "0")) with
  | Ok n =>
      if n <? 18
      then Ok (mk_locals (incr_underage (l_issues st2)) (l_seen_ids st2))
      else Ok st2
  | Raise ValueError =>
      Ok (mk_locals (incr_underage (l_issues st2)) (l_seen_ids st2))
  | Raise e => Raise e
  end.
Proof.
  unfold loop_body. rewrite !strip_or_empty. reflexivity.
Qed.

Lemma py_int_raises (v : value) (e : exn) :
  py_int max_str_digits v = Raise e -> (e = TypeError /\ v = VNone) \/ (e = ValueError /\ v <> VNone).
Proof.
  destruct v as [|s]; simpl.
  - intros [= <-]. by left.
  - intros H. right. split; [|done].
    revert H. unfold PyLong_FromString.
    destruct (skip_space _) as [|c s0] eqn:Hs.
    + simpl. by intros [= <-].
    + set (p := match String c s0 with
                | String "+" s' => (1, s')
                | String "-" s' => (-1, s')
                | _ => (1, String c s0) end).
      destruct p as [sg t].
      assert (Hscan : forall u prev a d e',
        scan_digits prev a d u = Raise e' -> e' = ValueError).
      { induction u as [|c' u IH]; intros prev a d e'; simpl.
        - destruct (is_underscore prev); [by intros [= <-]|done].
        - destruct (is_underscore c').
          + destruct (is_underscore prev); [by intros [= <-]|apply IH].
          + destruct (digit_value c'); [apply IH|].
            destruct (is_underscore prev); [by intros [= <-]|done]. }
      assert (Hbody :
        ('(acc, digits, rest) ← scan_digits zero 0 0 t;
          if (MAX_STR_DIGITS_THRESHOLD <? digits)
             && (0 <? max_str_digits) && (max_str_digits <? digits)
          then Raise ValueError
          else if digits =? 0 then Raise ValueError
          else match skip_space rest with
               | EmptyString => Ok (sg * acc)
               | _ => Raise ValueError
               end) = Raise e -> e = ValueError).
      { destruct (scan_digits zero 0 0 t) as [[[a d] rest]|e'] eqn:Hsc; simpl.
        - destruct (_ && _); [by intros [= <-]|].
          destruct (d =? 0); [by intros [= <-]|].
          destruct (skip_space rest); [done|by intros [= <-]].
        - intros [= <-]. by eapply Hscan. }
      destruct t as [|c1 t1]; [exact Hbody|].
      destruct (Ascii.eqb c1 "_") eqn:Hc.
      * apply Ascii.eqb_eq in Hc as ->. by intros [= <-].
      * intros H. apply Hbody. rewrite <- H.
        destruct c1 as [[] [] [] [] [] [] [] []]; try reflexivity; discriminate.
Qed.

Lemma loop_body_cases (st : locals) (r : row) :
  loop_body max_str_digits st r =
  if decide (null_age r) then Raise TypeError
  else Ok (after_row max_str_digits st r).
Proof.
  rewrite loop_body_eq. unfold after_row, age_counted.
  unfold dict_get_default. cbv zeta.
  destruct (decide (null_age r)) as [Hn|Hn]; unfold null_age in Hn.
  - rewrite Hn. reflexivity.
  - destruct (r !! "age") as [[|s]|]; simpl default; [done| |reflexivity].
    destruct (py_int max_str_digits (VStr s)) as [n|e] eqn:Hint.
    + by destruct (n <? 18).
    + apply py_int_raises in Hint as [[_ [=]]|[-> _]]. reflexivity.
Qed.

Lemma loop_returns (rows : list row) (st st' : locals) :
  loop max_str_digits st rows = Ok st' ->
  st' = fold_left (after_row max_str_digits) rows st
  /\ Forall (fun r => ~ null_age r) rows.
Proof.
  revert st. induction rows as [|r rows IH]; intros st; simpl.
  - intros [= <-]. by split.
  - rewrite loop_body_cases. destruct (decide (null_age r)) as [Hn|Hn]; [done|].
    simpl. intros H. apply IH in H as [-> HF]. split; [done|by constructor].
Qed.

Lemma loop_total (rows : list row) (st : locals) :
  Forall (fun r => ~ null_age r) rows ->
  loop max_str_digits st rows = Ok (fold_left (after_row max_str_digits) rows st).
Proof.
  revert st. induction rows as [|r rows IH]; intros st HF; simpl; [done|].
  inversion HF as [|? ? Hr HF']; subst.
  rewrite loop_body_cases, decide_False by done. simpl. by apply IH.
Qed.

Lemma loop_null_age (rows : list row) (st : locals) :
  Exists null_age rows -> loop max_str_digits st rows = Raise TypeError.
Proof.
  revert st. induction rows as [|r rows IH]; intros st HE; simpl.
  - inversion HE.
  - rewrite loop_body_cases. destruct (decide (null_age r)) as [Hn|Hn]; [done|].
    simpl. apply IH. by inversion HE.
Qed.

(** What one iteration does to each local. *)
Lemma after_row_seen (st : locals) (r : row) :
  l_seen_ids (after_row max_str_digits st r) = {[trimmed_id r]} ∪ l_seen_ids st.
Proof.
  unfold after_row, after_id_and_name.
  destruct (age_counted _ _), (name_blank r), (bool_decide _) eqn:Hin;
    simpl; try reflexivity; apply bool_decide_eq_true in Hin; set_solver.
Qed.

Lemma after_row_duplicate_ids (st : locals) (r : row) :
  duplicate_ids (l_issues (after_row max_str_digits st r)) =
  duplicate_ids (l_issues st)
  + (if bool_decide (trimmed_id r ∈ l_seen_ids st) then 1 else 0).
Proof.
  unfold after_row, after_id_and_name.
  destruct (age_counted _ _), (name_blank r), (bool_decide _);
    simpl; lia.
Qed.

Lemma after_row_missing_name (st : locals) (r : row) :
  missing_name (l_issues (after_row max_str_digits st r)) =
  missing_name (l_issues st) + (if name_blank r then 1 else 0).
Proof.
  unfold after_row, after_id_and_name.
  destruct (age_counted _ _), (name_blank r), (bool_decide _);
    simpl; lia.
Qed.

Lemma after_row_underage (st : locals) (r : row) :
  underage (l_issues (after_row max_str_digits st r)) =
  underage (l_issues st) + (if age_counted max_str_digits r then 1 else 0).
Proof.
  unfold after_row, after_id_and_name.
  destruct (age_counted _ _), (name_blank r), (bool_decide _);
    simpl; lia.
Qed.

Lemma count_rows_cons (f : row -> bool) (r : row) (rows : list row) :
  count_rows f (r :: rows) = (if f r then 1 else 0) + count_rows f rows.
Proof. unfold count_rows. simpl. destruct (f r); simpl length; lia. Qed.

(** The invariant of the scan. *)
Lemma fold_after_row (rows : list row) (st : locals) :
  let st' := fold_left (after_row max_str_digits) rows st in
  l_seen_ids st' = l_seen_ids st ∪ distinct_ids rows
  /\ duplicate_ids (l_issues st') + Z.of_nat (size (l_seen_ids st'))
     = duplicate_ids (l_issues st) + Z.of_nat (size (l_seen_ids st))
       + Z.of_nat (length rows)
  /\ missing_name (l_issues st')
     = missing_name (l_issues st) + count_rows name_blank rows
  /\ underage (l_issues st')
     = underage (l_issues st) + count_rows (age_counted max_str_digits) rows.
Proof.
  revert st. induction rows as [|r rows IH]; intros st; cbv zeta.
  - simpl. unfold distinct_ids, count_rows. simpl.
    repeat split; [set_solver|lia..].
  - simpl fold_left.
    destruct (IH (after_row max_str_digits st r)) as (Hs & Hd & Hm & Hu).
    rewrite Hs, Hm, Hu. rewrite Hs in Hd.
    rewrite after_row_missing_name, after_row_underage, !count_rows_cons.
    rewrite after_row_duplicate_ids in Hd. rewrite after_row_seen in Hd |- *.
    split; [|split; [|lia]].
    + unfold distinct_ids. rewrite fmap_cons, list_to_set_cons. set_solver.
    + rewrite Hd. simpl length.
      destruct (bool_decide (trimmed_id r ∈ l_seen_ids st)) eqn:Hin.
      * apply bool_decide_eq_true in Hin.
        replace ({[trimmed_id r]} ∪ l_seen_ids st) with (l_seen_ids st) by set_solver.
        lia.
      * apply bool_decide_eq_false in Hin.
        rewrite size_union, size_singleton by set_solver. lia.
Qed.

Lemma detect_issues_returns (rows : list row) (iss : issues) :
  detect_issues max_str_digits rows = Ok iss ->
  iss = l_issues (fold_left (after_row max_str_digits) rows fresh_locals)
  /\ Forall (fun r => ~ null_age r) rows.
Proof.
  unfold detect_issues.
  destruct (loop max_str_digits _ rows) as [st|e] eqn:Hl; simpl; [|done].
  intros [= <-]. apply loop_returns in Hl as [-> HF]. by split.
Qed.

Lemma detect_issues_total (rows : list row) :
  Forall (fun r => ~ null_age r) rows ->
  exists iss, detect_issues max_str_digits rows = Ok iss.
Proof.
  intros HF. unfold detect_issues. rewrite loop_total by done.
  simpl. eauto.
Qed.

End DetectFacts.

(** [detect_issues] raises exactly when some row has a null [age], and then
    it raises [TypeError]. *)
Lemma detect_issues_raises_iff (max_str_digits : Z) (rows : list row) (e : exn) :
  detect_issues max_str_digits rows = Raise e
  <-> e = TypeError /\ Exists null_age rows.
Proof.
  split.
  - intros H. destruct (decide (Exists null_age rows)) as [HE|HE].
    + unfold detect_issues in H. rewrite loop_null_age in H by done.
      simpl in H. by injection H as <-.
    + apply not_Exists_Forall in HE; [|intros r; apply _].
      apply (detect_issues_total max_str_digits) in HE as [iss Hi]. congruence.
  - intros [-> HE]. unfold detect_issues. by rewrite loop_null_age.
Qed.

(** C1, at a failing input: a row whose [age] is null makes [detect_issues]
    raise [TypeError] instead of returning counters; [int(None)] is not a
    [ValueError], so the handler around the age test does not absorb it. *)
Theorem detect_issues_null_age_raises (max_str_digits : Z) :
  detect_issues max_str_digits [short_row] = Raise TypeError.
Proof.
  apply detect_issues_raises_iff. split; [done|].
  constructor. unfold null_age. vm_compute. reflexivity.
Qed.

(** C2: in one iteration, an [age] text that [int] reads as 18 or more leaves
    [underage] unchanged; one read as less than 18, or one [int] rejects, adds
    exactly one; a row without the [age] key behaves as the same row with
    [age] set to the text 0, and adds one.  Over a whole run [underage]
    is the number of rows so counted. *)
Theorem underage_per_row (max_str_digits : Z) :
  (forall (st : locals) (r : row) (s : string) (n : Z),
     r !! "age" = Some (VStr s) -> py_int max_str_digits (VStr s) = Ok n ->
     18 <= n ->
     exists st', loop_body max_str_digits st r = Ok st'
       /\ underage (l_issues st') = underage (l_issues st))
  /\ (forall (st : locals) (r : row) (s : string) (n : Z),
     r !! "age" = Some (VStr s) -> py_int max_str_digits (VStr s) = Ok n ->
     n < 18 ->
     exists st', loop_body max_str_digits st r = Ok st'
       /\ underage (l_issues st') = underage (l_issues st) + 1)
  /\ (forall (st : locals) (r : row) (s : string) (e : exn),
     r !! "age" = Some (VStr s) -> py_int max_str_digits (VStr s) = Raise e ->
     exists st', loop_body max_str_digits st r = Ok st'
       /\ underage (l_issues st') = underage (l_issues st) + 1)
  /\ (forall (st : locals) (r : row),
     r !! "age" = None ->
     loop_body max_str_digits st r
       = loop_body max_str_digits st (<["age" := VStr "0"]> r)
     /\ exists st', loop_body max_str_digits st r = Ok st'
       /\ underage (l_issues st') = underage (l_issues st) + 1)
  /\ (forall (rows : list row) (iss : issues),
     detect_issues max_str_digits rows = Ok iss ->
     underage iss = count_rows (age_counted max_str_digits) rows).
Proof.
  assert (Hrow : forall st r, ~ null_age r ->
    exists st', loop_body max_str_digits st r = Ok st'
      /\ underage (l_issues st') = underage (l_issues st)
           + (if age_counted max_str_digits r then 1 else 0)).
  { intros st r Hn. eexists. rewrite loop_body_cases, decide_False by done.
    split; [reflexivity|apply after_row_underage]. }
  repeat split.
  - intros st r s n Hage Hint Hn.
    destruct (Hrow st r) as (st' & Hb & Hu); [unfold null_age; congruence|].
    exists st'. split; [done|]. rewrite Hu. unfold age_counted, dict_get_default.
    rewrite Hage. simpl default. rewrite Hint.
    destruct (Z.ltb_spec n 18); lia.
  - intros st r s n Hage Hint Hn.
    destruct (Hrow st r) as (st' & Hb & Hu); [unfold null_age; congruence|].
    exists st'. split; [done|]. rewrite Hu. unfold age_counted, dict_get_default.
    rewrite Hage. simpl default. rewrite Hint.
    destruct (Z.ltb_spec n 18); lia.
  - intros st r s e Hage Hint.
    destruct (Hrow st r) as (st' & Hb & Hu); [unfold null_age; congruence|].
    exists st'. split; [done|]. rewrite Hu. unfold age_counted, dict_get_default.
    rewrite Hage. simpl default. rewrite Hint. reflexivity.
  - rewrite !loop_body_eq. unfold dict_get_default.
    rewrite H, lookup_insert_eq. cbv zeta.
    unfold after_id_and_name, name_blank, trimmed_name, trimmed_id, text_or_empty.
    by rewrite !lookup_insert_ne.
  - destruct (Hrow st r) as (st' & Hb & Hu); [unfold null_age; congruence|].
    exists st'. split; [done|]. rewrite Hu. unfold age_counted, dict_get_default.
    rewrite H. reflexivity.
  - intros rows iss Hd. apply detect_issues_returns in Hd as [-> _].
    destruct (fold_after_row max_str_digits rows fresh_locals)
      as (_ & _ & _ & Hu).
    rewrite Hu. simpl. lia.
Qed.

Lemma underage_per_row_witness :
  (exists st', loop_body 4300 fresh_locals {[ "age" := VStr " 18 " ]} = Ok st'
     /\ underage (l_issues st') = underage (l_issues fresh_locals))
  /\ (exists st', loop_body 4300 fresh_locals {[ "age" := VStr "-3" ]} = Ok st'
     /\ underage (l_issues st') = underage (l_issues fresh_locals) + 1)
  /\ (exists st', loop_body 4300 fresh_locals {[ "age" := VStr "abc" ]} = Ok st'
     /\ underage (l_issues st') = underage (l_issues fresh_locals) + 1)
  /\ (exists st', loop_body 4300 fresh_locals ∅ = Ok st'
     /\ underage (l_issues st') = underage (l_issues fresh_locals) + 1)
  /\ underage (mk_issues 1 1 2) = count_rows (age_counted 4300) example_rows.
Proof.
  destruct (underage_per_row 4300) as (H1 & H2 & H3 & H4 & H5).
  split; [|split; [|split; [|split]]].
  - apply (H1 _ _ " 18 " 18); [vm_compute; reflexivity..|lia].
  - apply (H2 _ _ "-3" (-3)); [vm_compute; reflexivity..|lia].
  - apply (H3 _ _ "abc" ValueError); vm_compute; reflexivity.
  - apply H4. vm_compute; reflexivity.
  - apply H5. vm_compute; reflexivity.
Defined.

Lemma distinct_ids_snoc (rows : list row) (r : row) :
  distinct_ids (rows ++ [r]) = distinct_ids rows ∪ {[trimmed_id r]}.
Proof.
  unfold distinct_ids. rewrite fmap_app, list_to_set_app_L. simpl. set_solver.
Qed.

(** C3: the [duplicate_ids] counter returned for a row sequence is the number
    of rows minus the number of distinct trimmed identifiers; a row appended
    to a sequence adds one when its identifier already occurs in the sequence
    and nothing when it occurs for the first time, the empty identifier
    included. *)
Theorem duplicate_ids_count (max_str_digits : Z) :
  (forall (rows : list row) (iss : issues),
     detect_issues max_str_digits rows = Ok iss ->
     duplicate_ids iss
       = Z.of_nat (length rows) - Z.of_nat (size (distinct_ids rows)))
  /\ (forall (rows : list row) (r : row) (iss iss' : issues),
     detect_issues max_str_digits rows = Ok iss ->
     detect_issues max_str_digits (rows ++ [r]) = Ok iss' ->
     duplicate_ids iss'
       = duplicate_ids iss
         + (if bool_decide (trimmed_id r ∈ distinct_ids rows) then 1 else 0)).
Proof.
  assert (Hcount : forall rows iss,
    detect_issues max_str_digits rows = Ok iss ->
    duplicate_ids iss
      = Z.of_nat (length rows) - Z.of_nat (size (distinct_ids rows))).
  { intros rows iss Hd. apply detect_issues_returns in Hd as [-> _].
    destruct (fold_after_row max_str_digits rows fresh_locals)
      as (Hs & Hdup & _).
    rewrite Hs in Hdup.
    change (l_seen_ids fresh_locals) with (∅ : gset string) in Hdup.
    change (duplicate_ids (l_issues fresh_locals)) with 0 in Hdup.
    rewrite (left_id_L ∅ (∪)), size_empty in Hdup. lia. }
  split; [exact Hcount|].
  intros rows r iss iss' H H'.
  rewrite (Hcount _ _ H), (Hcount _ _ H'), distinct_ids_snoc, length_app.
  simpl length. case_bool_decide as Hin.
  - replace (distinct_ids rows ∪ {[trimmed_id r]}) with (distinct_ids rows)
      by set_solver.
    lia.
  - rewrite size_union, size_singleton by set_solver. lia.
Qed.

Lemma duplicate_ids_count_witness :
  detect_issues 4300 blank_id_rows = Ok (mk_issues 2 4 0)
  /\ size (distinct_ids blank_id_rows) = 2%nat
  /\ duplicate_ids (mk_issues 2 4 0)
     = Z.of_nat (length blank_id_rows) - Z.of_nat (size (distinct_ids blank_id_rows))
  /\ duplicate_ids (mk_issues 3 5 1)
     = duplicate_ids (mk_issues 2 4 0)
       + (if bool_decide (trimmed_id {[ "customer_id" := VStr " 7" ]}
                            ∈ distinct_ids blank_id_rows) then 1 else 0).
Proof.
  destruct (duplicate_ids_count 4300) as [H1 H2].
  split; [vm_compute; reflexivity|].
  split; [vm_compute; reflexivity|].
  split.
  - apply H1. vm_compute; reflexivity.
  - apply H2; vm_compute; reflexivity.
Defined.

(** C5: in one iteration that completes, a [name] text that is empty after
    trimming adds exactly one to [missing_name] and one that is not adds
    nothing; over a whole run [missing_name] is the number of rows whose
    trimmed name is empty. *)
Theorem missing_name_per_row (max_str_digits : Z) :
  (forall (st st' : locals) (r : row) (s : string),
     r !! "name" = Some (VStr s) -> strip s = "" ->
     loop_body max_str_digits st r = Ok st' ->
     missing_name (l_issues st') = missing_name (l_issues st) + 1)
  /\ (forall (st st' : locals) (r : row) (s : string),
     r !! "name" = Some (VStr s) -> strip s <> "" ->
     loop_body max_str_digits st r = Ok st' ->
     missing_name (l_issues st') = missing_name (l_issues st))
  /\ (forall (rows : list row) (iss : issues),
     detect_issues max_str_digits rows = Ok iss ->
     missing_name iss = count_rows name_blank rows).
Proof.
  assert (Hrow : forall st st' r,
    loop_body max_str_digits st r = Ok st' ->
    missing_name (l_issues st')
      = missing_name (l_issues st) + (if name_blank r then 1 else 0)).
  { intros st st' r. rewrite loop_body_cases.
    destruct (decide (null_age r)); [done|].
    intros [= <-]. apply after_row_missing_name. }
  repeat split.
  - intros st st' r s Hname Hs Hb. rewrite (Hrow _ _ _ Hb).
    unfold name_blank, trimmed_name, text_or_empty. by rewrite Hname, Hs.
  - intros st st' r s Hname Hs Hb. rewrite (Hrow _ _ _ Hb).
    unfold name_blank, trimmed_name, text_or_empty. rewrite Hname.
    destruct (String.eqb_spec (strip s) ""); [done|lia].
  - intros rows iss Hd. apply detect_issues_returns in Hd as [-> _].
    destruct (fold_after_row max_str_digits rows fresh_locals)
      as (_ & _ & Hm & _).
    rewrite Hm. simpl. lia.
Qed.

Lemma missing_name_per_row_witness :
  missing_name (l_issues (after_row 4300 fresh_locals {[ "name" := VStr "   " ]}))
    = missing_name (l_issues fresh_locals) + 1
  /\ missing_name (l_issues (after_row 4300 fresh_locals {[ "name" := VStr " Bo " ]}))
    = missing_name (l_issues fresh_locals)
  /\ missing_name (mk_issues 1 1 2) = count_rows name_blank example_rows.
Proof.
  destruct (missing_name_per_row 4300) as (H1 & H2 & H3).
  split; [|split].
  - apply (H1 _ _ {[ "name" := VStr "   " ]} "   "); vm_compute; reflexivity.
  - apply (H2 _ _ {[ "name" := VStr " Bo " ]} " Bo ");
      [vm_compute; reflexivity|vm_compute; discriminate|vm_compute; reflexivity].
  - apply H3. vm_compute; reflexivity.
Defined.



(** * Facts about the file system operations *)

Lemma io_bind_eq {A B : Type} (m : io A) (k : A -> io B) (w : world) :
  (m ≫= k) w =
  match m w with
  | (Ok a, w') => k a w'
  | (Raise e, w') => (Raise e, w')
  end.
Proof. reflexivity. Qed.

Lemma stat_None (w : world) (p : path) :
  stat w p = None -> p <> [] /\ fs w !! p = None.
Proof. destruct p; simpl; [done|]. intros H. by split. Qed.

Lemma stat_cons (w : world) (c : string) (p : path) :
  stat w (c :: p) = fs w !! (c :: p).
Proof. reflexivity. Qed.

Lemma adds_dirs_refl (allowed : list path) (w : world) : adds_dirs allowed w w.
Proof. split; [done|]. intros q. by left. Qed.

Lemma adds_dirs_trans (a1 a2 : list path) (w1 w2 w3 : world) :
  adds_dirs a1 w1 w2 -> adds_dirs a2 w2 w3 -> adds_dirs (a1 ++ a2) w1 w3.
Proof.
  intros [Ho1 H1] [Ho2 H2]. split; [congruence|].
  intros q. destruct (H1 q) as [E1|(N1 & D1 & I1)], (H2 q) as [E2|(N2 & D2 & I2)].
  - left. congruence.
  - right. rewrite <- E1. repeat split; [done..|]. apply elem_of_app. by right.
  - right. rewrite E2. repeat split; [done..|]. apply elem_of_app. by left.
  - congruence.
Qed.

Lemma adds_dirs_mono (a1 a2 : list path) (w w' : world) :
  a1 ⊆ a2 -> adds_dirs a1 w w' -> adds_dirs a2 w w'.
Proof.
  intros Hsub [Ho H]. split; [done|].
  intros q. destruct (H q) as [E|(N & D & I)]; [by left|right; auto].
Qed.

Lemma adds_dirs_insert (w : world) (p : path) :
  fs w !! p = None -> adds_dirs [p] w (set_fs w (<[p := Dir]> (fs w))).
Proof.
  intros Hp. split; [done|]. intros q. simpl.
  destruct (decide (p = q)) as [<-|Hne].
  - right. rewrite lookup_insert_eq. repeat split; [done|]. by apply list_elem_of_singleton.
  - left. by rewrite lookup_insert_ne.
Qed.

(** A path keeps what it holds unless it is one of the new directories. *)
Lemma adds_dirs_lookup (allowed : list path) (w w' : world) (q : path) :
  adds_dirs allowed w w' -> q ∉ allowed -> fs w' !! q = fs w !! q.
Proof. intros [_ H] Hq. by destruct (H q) as [E|(_ & _ & I)]. Qed.

Lemma adds_dirs_keeps (allowed : list path) (w w' : world) (q : path) (n : node) :
  adds_dirs allowed w w' -> fs w !! q = Some n -> fs w' !! q = Some n.
Proof. intros [_ H] Hq. destruct (H q) as [E|(N & _)]; congruence. Qed.

Lemma adds_dirs_files (allowed : list path) (w w' : world) (q : path) (b : string) :
  adds_dirs allowed w w' -> fs w' !! q = Some (File b) -> fs w !! q = Some (File b).
Proof. intros [_ H] Hq. destruct (H q) as [E|(_ & D & _)]; congruence. Qed.

Lemma os_mkdir_adds (p : path) (w w' : world) (r : result unit) :
  os_mkdir p w = (r, w') -> adds_dirs [p] w w'.
Proof.
  unfold os_mkdir. destruct (stat w p) eqn:Hp.
  { intros [= _ <-]. apply adds_dirs_refl. }
  apply stat_None in Hp as [_ Hp].
  destruct (stat w (parent p)) as [[|b]|]; intros [= _ <-];
    auto using adds_dirs_refl, adds_dirs_insert.
Qed.

Lemma mkdir_exist_ok_adds (p : path) (w w' : world) (r : result unit) :
  mkdir_exist_ok p w = (r, w') -> adds_dirs [p] w w'.
Proof.
  unfold mkdir_exist_ok. destruct (os_mkdir p w) as [[u|e] w1] eqn:Hm;
    apply os_mkdir_adds in Hm.
  - by intros [= _ <-].
  - destruct e; try (destruct (is_dir w1 p)); by intros [= _ <-].
Qed.

Lemma mkdir_parents_rev_adds (rp : list string) (w w' : world) (r : result unit) :
  mkdir_parents_rev rp w = (r, w') -> adds_dirs (ancestors_rev rp) w w'.
Proof.
  revert w w' r. induction rp as [|c rp IH]; intros w w' r.
  - simpl. intros [= _ <-]. apply adds_dirs_refl.
  - cbn [mkdir_parents_rev ancestors_rev].
    destruct (os_mkdir (rev (c :: rp)) w) as [[u|e] w1] eqn:Hm;
      apply os_mkdir_adds in Hm.
    + intros [= _ <-]. eapply adds_dirs_mono; [|done]. set_solver.
    + assert (Hw1 : adds_dirs (rev (c :: rp) :: ancestors_rev rp) w w1).
      { eapply adds_dirs_mono; [|done]. set_solver. }
      destruct e; try (destruct (is_dir w1 (rev (c :: rp))); by intros [= _ <-]).
      rewrite io_bind_eq.
      destruct (mkdir_parents_rev rp w1) as [[u|e] w2] eqn:Hrec;
        apply IH in Hrec.
      * intros Hlast. apply mkdir_exist_ok_adds in Hlast.
        eapply adds_dirs_mono;
          [|exact (adds_dirs_trans _ _ _ _ _ Hm (adds_dirs_trans _ _ _ _ _ Hrec Hlast))].
        set_solver.
      * intros [= _ <-].
        eapply adds_dirs_mono; [|exact (adds_dirs_trans _ _ _ _ _ Hm Hrec)].
        set_solver.
Qed.

Lemma parent_snoc (p : path) (c : string) : parent (p ++ [c])%list = p.
Proof. apply removelast_last. Qed.

Lemma is_dir_stat (w : world) (p : path) :
  is_dir w p = true <-> stat w p = Some Dir.
Proof. unfold is_dir. destruct (stat w p) as [[|b]|]; split; congruence. Qed.

Lemma is_file_false_stat (w : world) (p : path) (n : node) :
  is_file w p = false -> stat w p = Some n -> n = Dir.
Proof. unfold is_file. intros H Hs. rewrite Hs in H. by destruct n. Qed.

Lemma mkdir_exist_ok_ok (p : path) (w : world) :
  p <> [] -> is_file w p = false -> is_dir w (parent p) = true ->
  exists w', mkdir_exist_ok p w = (Ok tt, w') /\ is_dir w' p = true.
Proof.
  intros Hne Hf Hpar. apply is_dir_stat in Hpar.
  unfold mkdir_exist_ok, os_mkdir. destruct (stat w p) as [n|] eqn:Hp.
  - pose proof (is_file_false_stat _ _ _ Hf Hp) as ->.
    apply is_dir_stat in Hp. simpl. rewrite Hp. eauto.
  - rewrite Hpar. eexists. split; [done|].
    apply is_dir_stat. destruct p; [done|]. simpl. apply lookup_insert_eq.
Qed.

(** Creating a directory and its ancestors succeeds when no regular file
    stands at any of those paths. *)
Lemma mkdir_parents_rev_ok (rp : list string) (w : world) :
  (forall q, q ∈ ancestors_rev rp -> is_file w q = false) ->
  exists w', mkdir_parents_rev rp w = (Ok tt, w') /\ is_dir w' (rev rp) = true.
Proof.
  revert w. induction rp as [|c rp IH]; intros w Hfiles.
  - exists w. by split.
  - assert (Hp : is_file w (rev (c :: rp)) = false).
    { apply Hfiles. simpl. apply list_elem_of_here. }
    assert (Hne : rev (c :: rp) <> []).
    { simpl. by destruct (rev rp). }
    cbn [mkdir_parents_rev]. unfold os_mkdir.
    destruct (stat w (rev (c :: rp))) as [n|] eqn:Hst.
    { pose proof (is_file_false_stat _ _ _ Hp Hst) as ->.
      apply is_dir_stat in Hst. rewrite Hst. eauto. }
    change (rev (c :: rp)) with (rev rp ++ [c])%list in *. rewrite parent_snoc.
    destruct (stat w (rev rp)) as [[|b]|] eqn:Hpar.
    + eexists. split; [done|]. apply is_dir_stat.
      destruct (rev rp ++ [c])%list; [done|]. simpl. apply lookup_insert_eq.
    + exfalso. destruct rp as [|c' rp']; [done|].
      assert (Hf : is_file w (rev (c' :: rp')) = false).
      { apply Hfiles. simpl. apply list_elem_of_further, list_elem_of_here. }
      unfold is_file in Hf. by rewrite Hpar in Hf.
    + unfold no_such_file. rewrite io_bind_eq.
      destruct (IH w) as (w1 & Hrec & Hdir).
      { intros q Hq. apply Hfiles. simpl. by apply list_elem_of_further. }
      rewrite Hrec. apply mkdir_exist_ok_ok; [done| |by rewrite parent_snoc].
      apply mkdir_parents_rev_adds in Hrec as [_ Hrec].
      unfold is_file. destruct (rev rp ++ [c])%list as [|c0 q0] eqn:Hq; [done|].
      simpl in Hst |- *.
      destruct (Hrec (c0 :: q0)) as [E|(_ & D & _)]; [by rewrite E, Hst|by rewrite D].
Qed.

(** * Facts about [run_ingestion] *)

Lemma copy2_cases (src dst : path) (w w' : world) (r : result unit) :
  copy2 src dst w = (r, w') ->
  (exists e, r = Raise e /\ w' = w)
  \/ (r = Ok tt /\ exists b, stat w src = Some (File b)
        /\ w' = set_fs w (<[copy_destination w src dst := File b]> (fs w))).
Proof.
  unfold copy2. rewrite io_bind_eq. cbv beta iota.
  fold (copy_destination w src dst). set (d := copy_destination w src dst).
  case_bool_decide as Hsame.
  { intros [= <- <-]. left. eauto. }
  rewrite io_bind_eq. unfold read_bytes.
  destruct (stat w src) as [[|b]|]; try (intros [= <- <-]; left; by eauto).
  unfold write_bytes.
  destruct (stat w d) as [[|old]|].
  - intros [= <- <-]. left. eauto.
  - intros [= <- <-]. right. eauto.
  - destruct (stat w (parent d)) as [[|b']|]; intros [= <- <-];
      [right|left|left]; eauto.
Qed.

(** Both components of an equation between pairs, without computing in
    them. *)
Ltac split_pair H :=
  let H1 := fresh in
  let H2 := fresh in
  pose proof (f_equal fst H) as H1; pose proof (f_equal snd H) as H2;
  cbn [fst snd] in H1, H2; clear H; subst.

(** Neither the log nor the source is one of the directories step 1
    prepares. *)
Lemma log_not_prepared : LOG_FILE ∉ [LOGS_DIR; LANDING_DIR; ["data"]].
Proof. set_solver. Qed.

Lemma source_not_prepared : SOURCE_FILE ∉ [LOGS_DIR; LANDING_DIR; ["data"]].
Proof. set_solver. Qed.

(** ** Texts and their encoding *)

Lemma append_assoc (a b c : string) : (a +:+ b) +:+ c = a +:+ b +:+ c.
Proof.
  induction a as [|x a IH]; [done|].
  change (String x ((a +:+ b) +:+ c) = String x (a +:+ b +:+ c)). by rewrite IH.
Qed.

Lemma text_of_app (a b : string) : text_of (a +:+ b) = text_of a ++ text_of b.
Proof.
  induction a as [|x a IH]; [done|].
  change (code x :: text_of (a +:+ b) = code x :: (text_of a ++ text_of b)).
  by rewrite IH.
Qed.

Lemma code_range (c : ascii) : 0 <= code c < 256.
Proof. unfold code. pose proof (N_ascii_bounded c). lia. Qed.

Lemma utf8_code_point_low (cp : Z) :
  0 <= cp < 256 -> is_Some (utf8_code_point cp).
Proof.
  intros H. unfold utf8_code_point.
  destruct (cp <? 0) eqn:H0; [lia|].
  destruct (cp <? 128); [by eexists|].
  destruct (cp <? 2048) eqn:H2; [by eexists|lia].
Qed.

Lemma utf8_encode_app (a b : text) :
  utf8_encode (a ++ b)
  = x ← utf8_encode a; y ← utf8_encode b; Ok (x +:+ y).
Proof.
  induction a as [|cp a IH]; cbn [app utf8_encode].
  - cbn [mbind result_bind]. by destruct (utf8_encode b).
  - destruct (utf8_code_point cp) as [bs|]; [|done]. rewrite IH.
    destruct (utf8_encode a) as [x|e], (utf8_encode b) as [y|e'];
      cbn [mbind result_bind]; try done.
    by rewrite append_assoc.
Qed.

(** Encoding fails on the texts that hold a code point without UTF-8 form,
    and on no other. *)
Lemma utf8_encode_cases (t : text) :
  if utf8_encodable t then exists data, utf8_encode t = Ok data
  else utf8_encode t = Raise UnicodeEncodeError.
Proof.
  induction t as [|cp t IH]; [by eexists|].
  unfold utf8_encodable in *. cbn [forallb utf8_encode].
  destruct (utf8_code_point cp) as [bs|].
  - rewrite bool_decide_eq_true_2 by by eexists. cbn [andb].
    destruct (forallb _ t).
    + destruct IH as [data ->]. by eexists.
    + by rewrite IH.
  - rewrite bool_decide_eq_false_2 by by intros [? ?]. done.
Qed.

Lemma utf8_encodable_app (a b : text) :
  utf8_encodable (a ++ b) = utf8_encodable a && utf8_encodable b.
Proof. apply forallb_app. Qed.

Lemma utf8_encodable_text_of (s : string) : utf8_encodable (text_of s) = true.
Proof.
  induction s as [|c s IH]; [done|].
  change (text_of (String c s)) with (code c :: text_of s).
  unfold utf8_encodable in *. cbn [forallb]. rewrite IH.
  rewrite bool_decide_eq_true_2; [done|].
  apply utf8_code_point_low, code_range.
Qed.

(** ** Printing and appending *)

Lemma print_eq (encodes : Z -> bool) (t : text) (w : world) :
  10 ∈ t ->
  print encodes t w
  = if forallb encodes t then (Ok tt, printed w t)
    else (Raise UnicodeEncodeError, w).
Proof.
  intros Hnl. unfold print. rewrite io_bind_eq. unfold stdout_write at 1.
  destruct (forallb encodes t) eqn:Ht; [|done].
  assert (H10 : encodes 10 = true).
  { rewrite forallb_forall in Ht. by apply Ht, list_elem_of_In. }
  unfold stdout_write. cbn [fs stdout]. change (text_of nl) with [10].
  cbn [forallb]. rewrite H10. cbn [andb]. unfold printed.
  by rewrite <- app_assoc.
Qed.

Lemma log_msg_has_nl (ENV : text) (target : path) (nrows : Z) (iss : issues)
    (ts : string) :
  10 ∈ log_msg ENV target nrows iss ts.
Proof.
  unfold log_msg. rewrite !elem_of_app. right. right.
  match goal with
  | |- _ ∈ text_of (nl +:+ ?s) => change (text_of (nl +:+ s)) with (10 :: text_of s)
  end.
  by left.
Qed.

(** Whether the log can be opened depends on the tree alone; once it is
    open, whether the append succeeds depends on the text alone. *)
Lemma append_text_cases (p : path) (f : gmap (list string) node) :
  p <> [] ->
  (exists e, forall t out,
     append_text p t (mk_world f out) = (Raise e, mk_world f out))
  \/ (forall t out,
       append_text p t (mk_world f out)
       = match utf8_encode t with
         | Ok data =>
             (Ok tt, mk_world (<[p := File (match f !! p with
                                            | Some (File old) => old
                                            | _ => ""
                                            end +:+ data)]> f) out)
         | Raise e => (Raise e, mk_world (opened f p) out)
         end).
Proof.
  intros Hp. destruct p as [|c p]; [done|].
  unfold append_text, opened.
  destruct (f !! (c :: p)) as [[|old]|] eqn:Hf.
  - left. exists IsADirectoryError. intros t out.
    rewrite io_bind_eq. unfold open_append. cbn [stat fs]. by rewrite Hf.
  - right. intros t out.
    rewrite io_bind_eq. unfold open_append. cbn [stat fs]. rewrite Hf.
    rewrite io_bind_eq. unfold lift.
    destruct (utf8_encode t) as [data|e]; [|done].
    unfold write_bytes. cbn [stat fs]. by rewrite Hf.
  - destruct (parent (c :: p)) as [|c' p'] eqn:Hpar.
    + right. intros t out.
      rewrite io_bind_eq. unfold open_append. cbn [stat fs]. rewrite Hf, Hpar.
      cbn [stat]. rewrite io_bind_eq. unfold lift, set_fs. cbn [fs stdout].
      destruct (utf8_encode t) as [data|e]; [|done].
      unfold write_bytes. cbn [stat fs]. rewrite lookup_insert_eq.
      unfold set_fs. cbn [fs stdout]. by rewrite insert_insert_eq.
    + destruct (f !! (c' :: p')) as [[|b']|] eqn:Hf'.
      * right. intros t out.
        rewrite io_bind_eq. unfold open_append. cbn [stat fs]. rewrite Hf, Hpar.
        cbn [stat fs]. rewrite Hf'.
        rewrite io_bind_eq. unfold lift, set_fs. cbn [fs stdout].
        destruct (utf8_encode t) as [data|e]; [|done].
        unfold write_bytes. cbn [stat fs]. rewrite lookup_insert_eq.
        unfold set_fs. cbn [fs stdout]. by rewrite insert_insert_eq.
      * left. exists NotADirectoryError. intros t out.
        rewrite io_bind_eq. unfold open_append. cbn [stat fs]. rewrite Hf, Hpar.
        cbn [stat fs]. by rewrite Hf'.
      * left. eexists. intros t out.
        rewrite io_bind_eq. unfold open_append. cbn [stat fs]. rewrite Hf, Hpar.
        cbn [stat fs]. by rewrite Hf'.
Qed.

Lemma emit_eq (encodes : Z -> bool) (msg : text) (w : world) :
  10 ∈ msg ->
  emit encodes msg w
  = if forallb encodes msg then append_text LOG_FILE msg (printed w msg)
    else (Raise UnicodeEncodeError, w).
Proof.
  intros Hnl. unfold emit. rewrite io_bind_eq, print_eq by done.
  by destruct (forallb encodes msg).
Qed.

Section IngestionFacts.

Variable max_str_digits : Z.
Variable stdout_encodes : Z -> bool.
Variable csv_rows : string -> result (list row).

Lemma run_ingestion_eq (ENV : text) (now : datetime) (w : world) :
  run_ingestion max_str_digits stdout_encodes csv_rows ENV now w =
  match Path_mkdir LOGS_DIR w with
  | (Raise e, wa) => (Raise e, wa)
  | (Ok _, wa) =>
    match Path_mkdir LANDING_DIR wa with
    | (Raise e, w1) => (Raise e, w1)
    | (Ok _, w1) =>
      match fs w1 !! SOURCE_FILE with
      | None =>
          (Raise (FileNotFoundError
                    "Source file not found: data/source/customers.csv"), w1)
      | Some Dir => (Raise IsADirectoryError, w1)
      | Some (File content) =>
        match csv_rows content with
        | Raise e => (Raise e, w1)
        | Ok rows =>
          match detect_issues max_str_digits rows with
          | Raise e => (Raise e, w1)
          | Ok iss =>
            match copy2 SOURCE_FILE (target_file now) w1 with
            | (Raise e, w2) => (Raise e, w2)
            | (Ok _, w2) =>
                emit stdout_encodes
                  (log_msg ENV (target_file now) (Z.of_nat (length rows))
                     iss (strftime now)) w2
            end
          end
        end
      end
    end
  end.
Proof.
  unfold run_ingestion. rewrite io_bind_eq.
  destruct (Path_mkdir LOGS_DIR w) as [[u|e] wa]; [|done].
  rewrite io_bind_eq.
  destruct (Path_mkdir LANDING_DIR wa) as [[u'|e] w1]; [|done].
  rewrite io_bind_eq. unfold Path_exists, read_bytes.
  change (stat w1 SOURCE_FILE) with (fs w1 !! SOURCE_FILE).
  destruct (fs w1 !! SOURCE_FILE) as [[|content]|] eqn:Hsrc.
  - rewrite bool_decide_eq_true_2 by eauto. change (negb true) with false. cbv iota.
    rewrite io_bind_eq.
    change (stat w1 SOURCE_FILE) with (fs w1 !! SOURCE_FILE). by rewrite Hsrc.
  - rewrite bool_decide_eq_true_2 by eauto. change (negb true) with false. cbv iota.
    rewrite io_bind_eq.
    change (stat w1 SOURCE_FILE) with (fs w1 !! SOURCE_FILE). rewrite Hsrc.
    rewrite io_bind_eq. unfold lift at 1.
    destruct (csv_rows content) as [rows|e]; [|done].
    rewrite io_bind_eq. unfold lift at 1.
    destruct (detect_issues max_str_digits rows) as [iss|e]; [|done].
    rewrite io_bind_eq.
    change (joinpath LANDING_DIR ("customers_" +:+ strftime now +:+ ".csv"))
      with (target_file now).
    destruct (copy2 SOURCE_FILE (target_file now) w1) as [[u''|e] w2]; done.
  - rewrite bool_decide_eq_false_2 by (by intros [? ?]). reflexivity.
Qed.

Lemma logs_mkdir_adds (w wa : world) (r : result unit) :
  Path_mkdir LOGS_DIR w = (r, wa) -> adds_dirs [LOGS_DIR] w wa.
Proof. apply mkdir_parents_rev_adds. Qed.

Lemma landing_mkdir_adds (w wa : world) (r : result unit) :
  Path_mkdir LANDING_DIR w = (r, wa) -> adds_dirs [LANDING_DIR; ["data"]] w wa.
Proof. apply mkdir_parents_rev_adds. Qed.

Lemma adds_dirs_is_file (allowed : list path) (w w' : world) (q : path) :
  adds_dirs allowed w w' -> is_file w q = false -> is_file w' q = false.
Proof.
  intros [_ H]. unfold is_file. destruct q as [|c q]; [done|]. simpl.
  destruct (H (c :: q)) as [E|(_ & D & _)]; [by rewrite E|by rewrite D].
Qed.

(** Step 1 changes nothing but the directories it is asked for. *)
Lemma prepare_adds (w wa w1 : world) (ra r1 : result unit) :
  Path_mkdir LOGS_DIR w = (ra, wa) ->
  Path_mkdir LANDING_DIR wa = (r1, w1) ->
  adds_dirs [LOGS_DIR; LANDING_DIR; ["data"]] w w1.
Proof.
  intros Ha%logs_mkdir_adds H1%landing_mkdir_adds.
  exact (adds_dirs_trans _ _ _ _ _ Ha H1).
Qed.

(** Step 1 succeeds when no regular file stands where a directory is
    wanted. *)
Lemma prepare_ok (w : world) :
  is_file w LOGS_DIR = false -> is_file w ["data"] = false ->
  is_file w LANDING_DIR = false ->
  exists wa w1, Path_mkdir LOGS_DIR w = (Ok tt, wa)
    /\ Path_mkdir LANDING_DIR wa = (Ok tt, w1).
Proof.
  intros Hlogs Hdata Hlanding.
  destruct (mkdir_parents_rev_ok (rev LOGS_DIR) w) as (wa & Ha & _).
  { intros q Hq. apply list_elem_of_singleton in Hq as ->. exact Hlogs. }
  pose proof (logs_mkdir_adds _ _ _ Ha) as Hadds.
  destruct (mkdir_parents_rev_ok (rev LANDING_DIR) wa) as (w1 & H1 & _).
  { intros q Hq. apply elem_of_cons in Hq as [->|Hq];
      [|apply list_elem_of_singleton in Hq as ->];
      by eapply adds_dirs_is_file. }
  by exists wa, w1.
Qed.

End IngestionFacts.

(** C4, amended: with nothing at the source path the run ends in an
    exception; what it leaves behind differs from the initial state by, at
    most, new directories at [logs], [data] and [data/landing]: every regular
    file is one that was there with the same content, the log is as it was
    and nothing has been printed.  When no regular file stands at one of
    those three paths, so that the directories exist or can be created, the
    exception is the [FileNotFoundError] naming [data/source/customers.csv]. *)
Theorem missing_source_raises (max_str_digits : Z) (stdout_encodes : Z -> bool)
    (csv_rows : string -> result (list row)) (ENV : text) (now : datetime)
    (w w' : world) (r : result unit) :
  fs w !! SOURCE_FILE = None ->
  run_ingestion max_str_digits stdout_encodes csv_rows ENV now w = (r, w') ->
  (exists e, r = Raise e)
  /\ adds_dirs [LOGS_DIR; LANDING_DIR; ["data"]] w w'
  /\ (forall p b, fs w' !! p = Some (File b) -> fs w !! p = Some (File b))
  /\ fs w' !! LOG_FILE = fs w !! LOG_FILE
  /\ stdout w' = stdout w
  /\ (is_file w LOGS_DIR = false -> is_file w ["data"] = false ->
      is_file w LANDING_DIR = false ->
      r = Raise (FileNotFoundError source_missing_msg)).
Proof.
  intros Hsrc Hrun. rewrite run_ingestion_eq in Hrun.
  assert (Hframe : (exists e, r = Raise e)
            /\ adds_dirs [LOGS_DIR; LANDING_DIR; ["data"]] w w').
  { destruct (Path_mkdir LOGS_DIR w) as [[[]|e] wa] eqn:Ha.
    - destruct (Path_mkdir LANDING_DIR wa) as [[[]|e] w1] eqn:H1.
      + pose proof (prepare_adds _ _ _ _ _ Ha H1) as Hadds.
        rewrite (adds_dirs_lookup _ _ _ SOURCE_FILE Hadds), Hsrc in Hrun
          by set_solver.
        injection Hrun as <- <-. eauto.
      + injection Hrun as <- <-. split; [eauto|].
        by eapply prepare_adds.
    - injection Hrun as <- <-. split; [eauto|].
      eapply adds_dirs_mono; [|by eapply logs_mkdir_adds]. set_solver. }
  destruct Hframe as [Hexn Hadds].
  split; [done|]. split; [done|].
  split; [intros p b; by eapply adds_dirs_files|].
  split; [apply (adds_dirs_lookup _ _ _ _ Hadds); set_solver|].
  split; [apply Hadds|].
  intros Hlogs Hdata Hlanding.
  destruct (prepare_ok w Hlogs Hdata Hlanding) as (wa & w1 & Ha & H1).
  rewrite Ha, H1 in Hrun.
  rewrite (adds_dirs_lookup _ _ _ SOURCE_FILE (prepare_adds _ _ _ _ _ Ha H1)),
    Hsrc in Hrun by set_solver.
  by injection Hrun as <- _.
Qed.

Lemma target_file_cons (now : datetime) :
  target_file now = ["data"; "landing"; "customers_" +:+ strftime now +:+ ".csv"].
Proof. reflexivity. Qed.

Lemma copy_destination_cases (w : world) (now : datetime) :
  copy_destination w SOURCE_FILE (target_file now) = target_file now
  \/ copy_destination w SOURCE_FILE (target_file now)
     = ["data"; "landing"; "customers_" +:+ strftime now +:+ ".csv"; "customers.csv"].
Proof.
  unfold copy_destination. destruct (is_dir w (target_file now)); [right|left]; done.
Qed.

Lemma copy_destination_not_log (w : world) (now : datetime) :
  copy_destination w SOURCE_FILE (target_file now) <> LOG_FILE.
Proof.
  destruct (copy_destination_cases w now) as [-> | ->]; discriminate.
Qed.

Lemma copy_destination_adds (w w1 : world) (now : datetime) :
  adds_dirs [LOGS_DIR; LANDING_DIR; ["data"]] w w1 ->
  copy_destination w1 SOURCE_FILE (target_file now)
  = copy_destination w SOURCE_FILE (target_file now).
Proof.
  intros Hadds. unfold copy_destination, is_dir.
  rewrite target_file_cons, !stat_cons.
  rewrite (adds_dirs_lookup _ _ _ _ Hadds); [done|]. set_solver.
Qed.

(** The steps of a run that completes. *)
Lemma run_ingestion_success_steps (max_str_digits : Z)
    (stdout_encodes : Z -> bool)
    (csv_rows : string -> result (list row)) (ENV : text) (now : datetime)
    (w w' : world) :
  run_ingestion max_str_digits stdout_encodes csv_rows ENV now w = (Ok tt, w') ->
  exists (wa w1 : world) (content : string) (rows : list row) (iss : issues)
         (data : string),
    Path_mkdir LOGS_DIR w = (Ok tt, wa)
    /\ Path_mkdir LANDING_DIR wa = (Ok tt, w1)
    /\ fs w1 !! SOURCE_FILE = Some (File content)
    /\ csv_rows content = Ok rows
    /\ detect_issues max_str_digits rows = Ok iss
    /\ let msg := log_msg ENV (target_file now) (Z.of_nat (length rows)) iss
                    (strftime now) in
       forallb stdout_encodes msg = true
       /\ utf8_encode msg = Ok data
       /\ w' = mk_world
              (<[LOG_FILE := File (log_content w +:+ data)]>
                 (<[copy_destination w SOURCE_FILE (target_file now) := File content]>
                    (fs w1)))
              (stdout w ++ msg ++ text_of nl).
Proof.
  rewrite run_ingestion_eq.
  destruct (Path_mkdir LOGS_DIR w) as [[[]|e] wa] eqn:Ha; [|done].
  destruct (Path_mkdir LANDING_DIR wa) as [[[]|e] w1] eqn:H1; [|done].
  pose proof (prepare_adds _ _ _ _ _ Ha H1) as Hadds.
  destruct (fs w1 !! SOURCE_FILE) as [[|content]|] eqn:Hsrc; [done| |done].
  destruct (csv_rows content) as [rows|e] eqn:Hcsv; [|done].
  destruct (detect_issues max_str_digits rows) as [iss|e] eqn:Hdet; [|done].
  destruct (copy2 SOURCE_FILE (target_file now) w1) as [[[]|e] w2] eqn:Hcopy; [|done].
  apply copy2_cases in Hcopy as [(e & [=] & _)|(_ & b & Hb & ->)].
  change (stat w1 SOURCE_FILE) with (fs w1 !! SOURCE_FILE) in Hb.
  rewrite Hsrc in Hb. injection Hb as <-.
  rewrite (copy_destination_adds _ _ _ Hadds).
  rewrite emit_eq by apply log_msg_has_nl.
  destruct (forallb stdout_encodes _) eqn:Henc; [|done].
  unfold printed, set_fs. cbn [fs stdout].
  destruct (append_text_cases LOG_FILE
              (<[copy_destination w SOURCE_FILE (target_file now) := File content]>
                 (fs w1))) as [(e & Hfail)|Hok]; [done| |].
  { by rewrite Hfail. }
  rewrite Hok. destruct (utf8_encode _) as [data|e] eqn:Hutf; [|done].
  intros Heq. split_pair Heq.
  exists wa, w1, content, rows, iss, data.
  split; [done|]. split; [done|]. split; [done|]. split; [done|].
  split; [done|]. cbv zeta. split; [done|]. split; [done|].
  rewrite lookup_insert_ne by apply copy_destination_not_log.
  destruct Hadds as [Hout Hfs]. rewrite Hout.
  unfold log_content.
  rewrite (adds_dirs_lookup _ _ _ LOG_FILE (conj Hout Hfs)) by apply log_not_prepared.
  reflexivity.
Qed.

(** The final state of a run that completes. *)
Lemma run_ingestion_success (max_str_digits : Z) (stdout_encodes : Z -> bool)
    (csv_rows : string -> result (list row)) (ENV : text) (now : datetime)
    (w w' : world) :
  run_ingestion max_str_digits stdout_encodes csv_rows ENV now w = (Ok tt, w') ->
  exists (w1 : world) (content : string) (rows : list row) (iss : issues)
         (data : string),
    adds_dirs [LOGS_DIR; LANDING_DIR; ["data"]] w w1
    /\ fs w1 !! SOURCE_FILE = Some (File content)
    /\ csv_rows content = Ok rows
    /\ detect_issues max_str_digits rows = Ok iss
    /\ let msg := log_msg ENV (target_file now) (Z.of_nat (length rows)) iss
                    (strftime now) in
       forallb stdout_encodes msg = true
       /\ utf8_encode msg = Ok data
       /\ w' = mk_world
              (<[LOG_FILE := File (log_content w +:+ data)]>
                 (<[copy_destination w SOURCE_FILE (target_file now) := File content]>
                    (fs w1)))
              (stdout w ++ msg ++ text_of nl).
Proof.
  intros (wa & w1 & content & rows & iss & data & Ha & H1 & Hrest)
    %run_ingestion_success_steps.
  exists w1, content, rows, iss, data. split; [|exact Hrest].
  by eapply prepare_adds.
Qed.

(** C6: after a run that completes, the file [shutil.copy2] wrote lies under
    the landing directory and holds exactly the bytes of the source file,
    which the run has left as they were. *)
Theorem landing_copy_identical (max_str_digits : Z) (stdout_encodes : Z -> bool)
    (csv_rows : string -> result (list row)) (ENV : text) (now : datetime)
    (w w' : world) :
  run_ingestion max_str_digits stdout_encodes csv_rows ENV now w = (Ok tt, w') ->
  exists content : string,
    fs w !! SOURCE_FILE = Some (File content)
    /\ fs w' !! SOURCE_FILE = Some (File content)
    /\ fs w' !! copy_destination w SOURCE_FILE (target_file now)
       = Some (File content)
    /\ LANDING_DIR `prefix_of` copy_destination w SOURCE_FILE (target_file now).
Proof.
  intros Hrun.
  apply run_ingestion_success in Hrun
    as (w1 & content & rows & iss & data & Hadds & Hsrc & _ & _ & _ & _ & ->).
  exists content. cbn [fs].
  split; [by eapply adds_dirs_files|].
  split; [|split].
  - rewrite lookup_insert_ne by done.
    destruct (decide (copy_destination w SOURCE_FILE (target_file now)
                      = SOURCE_FILE)) as [->|Hne].
    + apply lookup_insert_eq.
    + by rewrite lookup_insert_ne.
  - rewrite lookup_insert_ne by (apply not_eq_sym, copy_destination_not_log).
    apply lookup_insert_eq.
  - destruct (copy_destination_cases w now) as [-> | ->].
    + by exists ["customers_" +:+ strftime now +:+ ".csv"].
    + by exists ["customers_" +:+ strftime now +:+ ".csv"; "customers.csv"].
Qed.

(** C7: after a run that completes, the log holds what it held before (nothing
    when it did not exist) followed by the UTF-8 bytes of the summary built
    from the clock, the parsed rows and their counters; the same summary was
    printed. *)
Theorem log_appended (max_str_digits : Z) (stdout_encodes : Z -> bool)
    (csv_rows : string -> result (list row)) (ENV : text) (now : datetime)
    (w w' : world) :
  run_ingestion max_str_digits stdout_encodes csv_rows ENV now w = (Ok tt, w') ->
  exists (content : string) (rows : list row) (iss : issues) (data : string),
    fs w !! SOURCE_FILE = Some (File content)
    /\ csv_rows content = Ok rows
    /\ detect_issues max_str_digits rows = Ok iss
    /\ let summary := log_msg ENV (target_file now) (Z.of_nat (length rows))
                        iss (strftime now) in
       utf8_encode summary = Ok data
       /\ fs w' !! LOG_FILE = Some (File (log_content w +:+ data))
       /\ stdout w' = stdout w ++ summary ++ text_of nl.
Proof.
  intros Hrun.
  apply run_ingestion_success in Hrun
    as (w1 & content & rows & iss & data & Hadds & Hsrc & Hcsv & Hdet & _ & Hutf & ->).
  exists content, rows, iss, data. cbn [fs stdout].
  split; [by eapply adds_dirs_files|].
  split; [done|]. split; [done|]. split; [done|].
  split; [apply lookup_insert_eq|done].
Qed.

(** The summary mentions the label once, in its first line. *)
Lemma log_msg_label (ENV : text) (target : path) (nrows : Z) (iss : issues)
    (ts : string) :
  log_msg ENV target nrows iss ts
  = text_of "[OK] Ingestion completed | ENV=" ++ ENV
    ++ text_of (summary_tail target nrows iss ts).
Proof. reflexivity. Qed.

(** A summary can be written when its label can: the rest is the same
    whatever the label. *)
Lemma summary_encodes (encodes : Z -> bool) (ENV1 ENV2 : text) (tail : string) :
  forallb encodes ENV1 = true -> forallb encodes ENV2 = true ->
  forallb encodes (text_of "[OK] Ingestion completed | ENV=" ++ ENV1 ++ text_of tail)
  = forallb encodes (text_of "[OK] Ingestion completed | ENV=" ++ ENV2 ++ text_of tail).
Proof. intros H1 H2. by rewrite !forallb_app, H1, H2. Qed.

Lemma summary_utf8 (ENV : text) (tail : string) :
  utf8_encodable ENV = true ->
  exists data,
    utf8_encode (text_of "[OK] Ingestion completed | ENV=" ++ ENV ++ text_of tail)
    = Ok data.
Proof.
  intros H.
  pose proof (utf8_encode_cases
                (text_of "[OK] Ingestion completed | ENV=" ++ ENV ++ text_of tail))
    as Hc.
  by rewrite !utf8_encodable_app, H, !utf8_encodable_text_of in Hc.
Qed.

(** C9, amended: two runs from the same state at the same instant that
    differ in the label alone leave the same tree apart from the log: same
    target file, same content.  When standard output can write both labels
    and both have a UTF-8 form, the two runs also end the same way (both
    complete, or both raise the same exception).  When they complete, what
    each printed and appended to the log is the label's line followed by a
    text common to both, built from the same rows, counters, target and
    timestamp.  When they raise, the trees are equal, and the outputs are
    equal unless the summary had been printed. *)
Theorem ENV_label_only (max_str_digits : Z) (stdout_encodes : Z -> bool)
    (csv_rows : string -> result (list row)) (ENV1 ENV2 : text)
    (now : datetime) (w w1 w2 : world) (r1 r2 : result unit) :
  run_ingestion max_str_digits stdout_encodes csv_rows ENV1 now w = (r1, w1) ->
  run_ingestion max_str_digits stdout_encodes csv_rows ENV2 now w = (r2, w2) ->
  (forall p, p <> LOG_FILE -> fs w1 !! p = fs w2 !! p)
  /\ (forallb stdout_encodes ENV1 = true -> forallb stdout_encodes ENV2 = true ->
      utf8_encodable ENV1 = true -> utf8_encodable ENV2 = true ->
      r1 = r2
      /\ match r1 with
         | Ok _ =>
             exists (rows : list row) (iss : issues) (data1 data2 : string),
               let tail := summary_tail (target_file now) (Z.of_nat (length rows))
                             iss (strftime now) in
               let summary := fun ENV =>
                 text_of "[OK] Ingestion completed | ENV=" ++ ENV ++ text_of tail in
               stdout w1 = stdout w ++ summary ENV1 ++ text_of nl
               /\ stdout w2 = stdout w ++ summary ENV2 ++ text_of nl
               /\ utf8_encode (summary ENV1) = Ok data1
               /\ utf8_encode (summary ENV2) = Ok data2
               /\ fs w1 !! LOG_FILE = Some (File (log_content w +:+ data1))
               /\ fs w2 !! LOG_FILE = Some (File (log_content w +:+ data2))
         | Raise _ =>
             fs w1 = fs w2
             /\ (stdout w1 = stdout w2
                 \/ exists (rows : list row) (iss : issues),
                      let tail := summary_tail (target_file now)
                                    (Z.of_nat (length rows)) iss (strftime now) in
                      stdout w1 = stdout w
                        ++ (text_of "[OK] Ingestion completed | ENV=" ++ ENV1
                            ++ text_of tail) ++ text_of nl
                      /\ stdout w2 = stdout w
                        ++ (text_of "[OK] Ingestion completed | ENV=" ++ ENV2
                            ++ text_of tail) ++ text_of nl)
         end).
Proof.
  intros H1 H2. rewrite run_ingestion_eq in H1, H2.
  destruct (Path_mkdir LOGS_DIR w) as [[[]|e] wa] eqn:Ha;
    [|injection H1 as <- <-; injection H2 as <- <-; auto].
  destruct (Path_mkdir LANDING_DIR wa) as [[[]|e] wb] eqn:Hb;
    [|injection H1 as <- <-; injection H2 as <- <-; auto].
  pose proof (prepare_adds _ _ _ _ _ Ha Hb) as Hadds.
  destruct (fs wb !! SOURCE_FILE) as [[|content]|] eqn:Hsrc;
    [injection H1 as <- <-; injection H2 as <- <-; auto| |
     injection H1 as <- <-; injection H2 as <- <-; auto].
  destruct (csv_rows content) as [rows|e] eqn:Hcsv;
    [|injection H1 as <- <-; injection H2 as <- <-; auto].
  destruct (detect_issues max_str_digits rows) as [iss|e] eqn:Hdet;
    [|injection H1 as <- <-; injection H2 as <- <-; auto].
  destruct (copy2 SOURCE_FILE (target_file now) wb) as [[[]|e] wc] eqn:Hcopy;
    [|injection H1 as <- <-; injection H2 as <- <-; auto].
  rewrite emit_eq in H1, H2 by apply log_msg_has_nl.
  rewrite !log_msg_label in H1, H2.
  set (tail := summary_tail (target_file now) (Z.of_nat (length rows)) iss
                 (strftime now)) in *.
  set (summary := fun ENV : text =>
         text_of "[OK] Ingestion completed | ENV=" ++ ENV ++ text_of tail) in *.
  change (text_of "[OK] Ingestion completed | ENV=" ++ ENV1 ++ text_of tail)
    with (summary ENV1) in H1.
  change (text_of "[OK] Ingestion completed | ENV=" ++ ENV2 ++ text_of tail)
    with (summary ENV2) in H2.
  unfold printed in H1, H2.
  assert (Hout : stdout wc = stdout w).
  { apply copy2_cases in Hcopy as [(e & [=] & _)|(_ & b & _ & ->)].
    simpl. apply Hadds. }
  assert (Hlog : log_content wc = log_content w).
  { apply copy2_cases in Hcopy as [(e & [=] & _)|(_ & b & _ & ->)].
    unfold log_content, set_fs. cbn [fs].
    rewrite (copy_destination_adds _ _ _ Hadds).
    rewrite lookup_insert_ne by apply copy_destination_not_log.
    rewrite (adds_dirs_lookup _ _ _ LOG_FILE Hadds) by apply log_not_prepared. done. }
  (* everything but the log *)
  assert (Hopened : forall p, p <> LOG_FILE ->
            opened (fs wc) LOG_FILE !! p = fs wc !! p).
  { intros p Hp. unfold opened. destruct (fs wc !! LOG_FILE); [done|].
    by rewrite lookup_insert_ne. }
  assert (Hframe : forall ENV r' w',
            (if forallb stdout_encodes (summary ENV)
             then append_text LOG_FILE (summary ENV)
                    (mk_world (fs wc) (stdout wc ++ summary ENV ++ text_of nl))
             else (Raise UnicodeEncodeError, wc)) = (r', w') ->
            forall p, p <> LOG_FILE -> fs w' !! p = fs wc !! p).
  { intros ENV r' w' Hw p Hp.
    destruct (forallb stdout_encodes (summary ENV)); [|by injection Hw as _ <-].
    destruct (append_text_cases LOG_FILE (fs wc)) as [(e & Hfail)|Hok]; [done| |].
    - rewrite Hfail in Hw. by injection Hw as _ <-.
    - rewrite Hok in Hw. destruct (utf8_encode (summary ENV));
        injection Hw as _ <-; cbn [fs]; [by rewrite lookup_insert_ne|by apply Hopened]. }
  split.
  { intros p Hp. rewrite (Hframe _ _ _ H1 p Hp), (Hframe _ _ _ H2 p Hp). done. }
  clear Hframe. intros He1 He2 Hu1 Hu2.
  assert (Hsame : forallb stdout_encodes (summary ENV1)
                  = forallb stdout_encodes (summary ENV2))
    by exact (summary_encodes stdout_encodes ENV1 ENV2 tail He1 He2).
  rewrite Hsame in H1. clear Hsame.
  destruct (forallb stdout_encodes (summary ENV2)).
  2:{ injection H1 as <- <-. injection H2 as <- <-. auto. }
  destruct (summary_utf8 ENV1 tail Hu1) as [data1 Hd1].
  destruct (summary_utf8 ENV2 tail Hu2) as [data2 Hd2].
  fold (summary ENV1) in Hd1. fold (summary ENV2) in Hd2.
  destruct (append_text_cases LOG_FILE (fs wc)) as [(e & Hfail)|Hok]; [done| |].
  - rewrite Hfail in H1, H2. injection H1 as <- <-. injection H2 as <- <-.
    cbn [fs stdout]. split; [done|]. split; [done|].
    right. exists rows, iss. cbv zeta. by rewrite Hout.
  - rewrite Hok, Hd1 in H1. rewrite Hok, Hd2 in H2.
    injection H1 as <- <-. injection H2 as <- <-.
    cbn [fs stdout]. split; [done|].
    exists rows, iss, data1, data2. cbv zeta. rewrite !lookup_insert_eq, Hout.
    fold (log_content wc). by rewrite Hlog.
Qed.

(** C4 as stated fails: with nothing at the source path but a regular file
    named [logs], creating the logs directory raises [FileExistsError] before
    the source is looked for, so the exception is not the one naming the
    source. *)
Lemma missing_source_other_exception :
  fs world_logs_is_file !! SOURCE_FILE = None
  /\ fst (run_ingestion 4300 utf8_stdout demo_csv (text_of "dev") demo_now
            world_logs_is_file)
     = Raise FileExistsError
  /\ forall msg : string,
       fst (run_ingestion 4300 utf8_stdout demo_csv (text_of "dev") demo_now
              world_logs_is_file)
       <> Raise (FileNotFoundError msg).
Proof.
  split; [vm_compute; reflexivity|].
  assert (H : fst (run_ingestion 4300 utf8_stdout demo_csv (text_of "dev")
                     demo_now world_logs_is_file)
              = Raise FileExistsError) by (vm_compute; reflexivity).
  split; [exact H|]. intros msg. rewrite H. discriminate.
Qed.

(** C9 as stated fails: the label decides whether the run completes.  From
    the same state at the same instant, the label [dev] completes while the
    label made of the lone surrogate U+DCFF (what [os.getenv] returns for the
    byte 0xFF) raises [UnicodeEncodeError] when the summary is written to the
    log, even on a stream that prints it; and on a stream that writes ASCII
    only, the label [é] raises [UnicodeEncodeError] at [print]. *)
Lemma unencodable_label_raises :
  fst (run_ingestion 4300 any_stdout demo_csv (text_of "dev") demo_now
         world_with_source) = Ok tt
  /\ fst (run_ingestion 4300 any_stdout demo_csv [56575] demo_now
            world_with_source) = Raise UnicodeEncodeError
  /\ fst (run_ingestion 4300 ascii_stdout demo_csv (text_of "dev") demo_now
            world_with_source) = Ok tt
  /\ fst (run_ingestion 4300 ascii_stdout demo_csv [233] demo_now
            world_with_source) = Raise UnicodeEncodeError.
Proof.
  split; [vm_compute; reflexivity|]. split; [vm_compute; reflexivity|].
  split; vm_compute; reflexivity.
Qed.

Lemma missing_source_raises_witness :
  let out := run_ingestion 4300 utf8_stdout demo_csv (text_of "dev") demo_now
               world_without_source in
  fst out = Raise (FileNotFoundError source_missing_msg)
  /\ fs (snd out) !! LOG_FILE = Some (File "earlier entry")
  /\ stdout (snd out) = [].
Proof.
  intros out.
  destruct (missing_source_raises 4300 utf8_stdout demo_csv (text_of "dev")
              demo_now world_without_source (snd out) (fst out))
    as (_ & _ & _ & Hlog & Hout & Hexn).
  - vm_compute. reflexivity.
  - apply surjective_pairing.
  - split; [apply Hexn; vm_compute; reflexivity|].
    split; [rewrite Hlog; vm_compute; reflexivity|exact Hout].
Defined.

Lemma landing_copy_identical_witness :
  let out := run_ingestion 4300 utf8_stdout demo_csv (text_of "dev") demo_now
               world_with_source in
  fst out = Ok tt
  /\ exists content : string,
       fs world_with_source !! SOURCE_FILE = Some (File content)
       /\ fs (snd out) !! SOURCE_FILE = Some (File content)
       /\ fs (snd out) !! copy_destination world_with_source SOURCE_FILE
                            (target_file demo_now)
          = Some (File content)
       /\ LANDING_DIR `prefix_of` copy_destination world_with_source SOURCE_FILE
                                    (target_file demo_now).
Proof.
  intros out. split; [vm_compute; reflexivity|].
  apply (landing_copy_identical 4300 utf8_stdout demo_csv (text_of "dev") demo_now).
  vm_compute. reflexivity.
Defined.

Lemma log_appended_witness :
  let out := run_ingestion 4300 utf8_stdout demo_csv (text_of "dev") demo_now
               world_with_source in
  exists (content : string) (rows : list row) (iss : issues) (data : string),
    fs world_with_source !! SOURCE_FILE = Some (File content)
    /\ demo_csv content = Ok rows
    /\ detect_issues 4300 rows = Ok iss
    /\ let summary := log_msg (text_of "dev") (target_file demo_now)
                        (Z.of_nat (length rows)) iss (strftime demo_now) in
       utf8_encode summary = Ok data
       /\ fs (snd out) !! LOG_FILE
          = Some (File (log_content world_with_source +:+ data))
       /\ stdout (snd out) = stdout world_with_source ++ summary ++ text_of nl.
Proof.
  intros out.
  apply (log_appended 4300 utf8_stdout demo_csv (text_of "dev") demo_now).
  vm_compute. reflexivity.
Defined.

Lemma ENV_label_only_witness :
  let out1 := run_ingestion 4300 utf8_stdout demo_csv (text_of "dev") demo_now
                world_with_source in
  let out2 := run_ingestion 4300 utf8_stdout demo_csv (text_of "prod") demo_now
                world_with_source in
  fst out1 = Ok tt
  /\ fst out1 = fst out2
  /\ forall p, p <> LOG_FILE -> fs (snd out1) !! p = fs (snd out2) !! p.
Proof.
  intros out1 out2. split; [vm_compute; reflexivity|].
  destruct (ENV_label_only 4300 utf8_stdout demo_csv (text_of "dev")
              (text_of "prod") demo_now
              world_with_source (snd out1) (snd out2) (fst out1) (fst out2))
    as (Hfs & Hr).
  - apply surjective_pairing.
  - apply surjective_pairing.
  - split; [|exact Hfs].
    apply Hr; vm_compute; reflexivity.
Defined.

(** * Facts about [detect_issues] with its objects in a store *)

Section ObjectFacts.

Variable max_str_digits : Z.

Lemma heap_bind_eq {A B : Type} (m : heap A) (k : A -> heap B) (σ : list obj) :
  (m ≫= k) σ =
  match m σ with
  | (Ok a, σ') => k a σ'
  | (Raise e, σ') => (Raise e, σ')
  end.
Proof. reflexivity. Qed.

(** The two objects of a call sit at the end of the store. *)
Lemma store_dict (σ0 : list obj) (o1 o2 : obj) :
  (σ0 ++ [o1; o2]) !! length σ0 = Some o1.
Proof. by apply list_lookup_middle. Qed.

Lemma store_set (σ0 : list obj) (o1 o2 : obj) :
  (σ0 ++ [o1; o2]) !! S (length σ0) = Some o2.
Proof.
  rewrite lookup_app_r by lia.
  by replace (S (length σ0) - length σ0)%nat with 1%nat by lia.
Qed.

Lemma store_put_dict (σ0 : list obj) (o o1 o2 : obj) :
  <[length σ0 := o]> (σ0 ++ [o1; o2]) = σ0 ++ [o; o2].
Proof.
  rewrite insert_app_r_alt by lia.
  by replace (length σ0 - length σ0)%nat with 0%nat by lia.
Qed.

Lemma store_put_set (σ0 : list obj) (o o1 o2 : obj) :
  <[S (length σ0) := o]> (σ0 ++ [o1; o2]) = σ0 ++ [o1; o].
Proof.
  rewrite insert_app_r_alt by lia.
  by replace (S (length σ0) - length σ0)%nat with 1%nat by lia.
Qed.

Lemma dict_update_store (σ0 : list obj) (st : locals) (f : issues -> issues) :
  dict_update (length σ0) f (store_of σ0 st)
  = (Ok tt, store_of σ0 (mk_locals (f (l_issues st)) (l_seen_ids st))).
Proof.
  unfold dict_update, store_of. by rewrite store_dict, store_put_dict.
Qed.

Lemma set_contains_store (σ0 : list obj) (st : locals) (x : string) :
  set_contains (S (length σ0)) x (store_of σ0 st)
  = (Ok (bool_decide (x ∈ l_seen_ids st)), store_of σ0 st).
Proof. unfold set_contains, store_of. by rewrite store_set. Qed.

Lemma set_add_store (σ0 : list obj) (st : locals) (x : string) :
  set_add (S (length σ0)) x (store_of σ0 st)
  = (Ok tt, store_of σ0 (mk_locals (l_issues st) ({[x]} ∪ l_seen_ids st))).
Proof.
  unfold set_add, store_of. by rewrite store_set, store_put_set.
Qed.

(** One iteration on the store does what [loop_body] does on the locals; an
    exception leaves the two counters updated before it in the store. *)
Lemma loop_body_obj_refines (σ0 : list obj) (st : locals) (r : row) :
  loop_body_obj max_str_digits (length σ0) (S (length σ0)) r (store_of σ0 st) =
  match loop_body max_str_digits st r with
  | Ok st' => (Ok tt, store_of σ0 st')
  | Raise e => (Raise e, store_of σ0 (after_id_and_name st r))
  end.
Proof.
  rewrite loop_body_eq. unfold loop_body_obj.
  rewrite !strip_or_empty.
  rewrite heap_bind_eq. unfold heap_lift at 1. cbv beta iota.
  rewrite heap_bind_eq. unfold heap_lift at 1. cbv beta iota.
  rewrite heap_bind_eq, set_contains_store. cbv beta iota.
  fold (trimmed_id r). fold (trimmed_name r). fold (name_blank r).
  rewrite heap_bind_eq.
  assert (Hdup :
    (if bool_decide (trimmed_id r ∈ l_seen_ids st)
     then dict_update (length σ0) incr_duplicate_ids
     else set_add (S (length σ0)) (trimmed_id r)) (store_of σ0 st)
    = (Ok tt, store_of σ0
         (if bool_decide (trimmed_id r ∈ l_seen_ids st)
          then mk_locals (incr_duplicate_ids (l_issues st)) (l_seen_ids st)
          else mk_locals (l_issues st) ({[trimmed_id r]} ∪ l_seen_ids st)))).
  { destruct (bool_decide _); [apply dict_update_store|apply set_add_store]. }
  rewrite Hdup. cbv beta iota. rewrite heap_bind_eq.
  set (st1 := if bool_decide (trimmed_id r ∈ l_seen_ids st)
              then mk_locals (incr_duplicate_ids (l_issues st)) (l_seen_ids st)
              else mk_locals (l_issues st) ({[trimmed_id r]} ∪ l_seen_ids st)).
  assert (Hname :
    (if name_blank r then dict_update (length σ0) incr_missing_name else mret tt)
      (store_of σ0 st1)
    = (Ok tt, store_of σ0 (after_id_and_name st r))).
  { unfold after_id_and_name. fold st1.
    destruct (name_blank r); [apply dict_update_store|done]. }
  rewrite Hname. cbv beta iota zeta.
  destruct (py_int max_str_digits (dict_get_default r "age" (VStr "0")))
    as [n|e].
  - destruct (n <? 18); [apply dict_update_store|done].
  - destruct e; try done. apply dict_update_store.
Qed.

Lemma loop_obj_refines (rows : list row) (σ0 : list obj) (st : locals) :
  exists st2 : locals,
    snd (loop_obj max_str_digits (length σ0) (S (length σ0)) rows (store_of σ0 st))
      = store_of σ0 st2
    /\ match loop max_str_digits st rows with
       | Ok st' =>
           fst (loop_obj max_str_digits (length σ0) (S (length σ0)) rows
                  (store_of σ0 st)) = Ok tt
           /\ st2 = st'
       | Raise e =>
           fst (loop_obj max_str_digits (length σ0) (S (length σ0)) rows
                  (store_of σ0 st)) = Raise e
       end.
Proof.
  revert st. induction rows as [|r rows IH]; intros st.
  - exists st. by simpl.
  - cbn [loop_obj loop]. rewrite heap_bind_eq, loop_body_obj_refines.
    destruct (loop_body max_str_digits st r) as [st'|e]; simpl.
    + apply IH.
    + eauto.
Qed.

Lemma detect_issues_obj_eq (rows : list row) (σ : list obj) :
  detect_issues_obj max_str_digits rows σ =
  match loop_obj max_str_digits (length σ) (S (length σ)) rows
          (store_of σ fresh_locals) with
  | (Ok _, σ') => (Ok (length σ), σ')
  | (Raise e, σ') => (Raise e, σ')
  end.
Proof.
  unfold detect_issues_obj.
  rewrite heap_bind_eq. unfold new at 1. cbv beta iota.
  rewrite heap_bind_eq. unfold new at 1. cbv beta iota.
  rewrite length_app. simpl length.
  replace (length σ + 1)%nat with (S (length σ)) by lia.
  rewrite <- (assoc_L (++)). simpl app.
  change (σ ++ [ODict (mk_issues 0 0 0); OSet ∅]) with (store_of σ fresh_locals).
  rewrite heap_bind_eq. reflexivity.
Qed.

(** A call appends its two objects to the store, whatever the store holds,
    and its outcome is that of [detect_issues]. *)
Lemma detect_issues_obj_refines (rows : list row) (σ : list obj) :
  exists o1 o2 : obj,
    snd (detect_issues_obj max_str_digits rows σ) = σ ++ [o1; o2]
    /\ match detect_issues max_str_digits rows with
       | Ok iss =>
           fst (detect_issues_obj max_str_digits rows σ) = Ok (length σ)
           /\ o1 = ODict iss
       | Raise e => fst (detect_issues_obj max_str_digits rows σ) = Raise e
       end.
Proof.
  rewrite detect_issues_obj_eq. unfold detect_issues.
  destruct (loop_obj_refines rows σ fresh_locals) as (st2 & Hsnd & Hfst).
  exists (ODict (l_issues st2)), (OSet (l_seen_ids st2)).
  destruct (loop_obj max_str_digits (length σ) (S (length σ)) rows
              (store_of σ fresh_locals)) as [[[]|e] σ'] eqn:Hl;
    simpl in Hsnd; subst σ'; (split; [done|]);
    destruct (loop max_str_digits fresh_locals rows) as [st'|e'];
    simpl in Hfst |- *.
  - destruct Hfst as [_ ->]. done.
  - discriminate Hfst.
  - destruct Hfst as [Hfst _]. discriminate Hfst.
  - by injection Hfst as ->.
Qed.

End ObjectFacts.

(** C8: two calls in a row on the same rows, from any store, end the same
    way, the way [detect_issues] does as a function of the rows alone.  When
    they return, they return references to two distinct dicts holding the
    same counters, and the second call leaves the first dict, like every
    object that existed before, as it was. *)
Theorem detect_issues_repeatable (max_str_digits : Z) (rows : list row)
    (σ : list obj) :
  let out1 := detect_issues_obj max_str_digits rows σ in
  let out2 := detect_issues_obj max_str_digits rows (snd out1) in
  σ `prefix_of` snd out1
  /\ snd out1 `prefix_of` snd out2
  /\ match detect_issues max_str_digits rows with
     | Ok iss =>
         exists l1 l2 : nat,
           fst out1 = Ok l1 /\ fst out2 = Ok l2 /\ l1 <> l2
           /\ snd out1 !! l1 = Some (ODict iss)
           /\ snd out2 !! l1 = Some (ODict iss)
           /\ snd out2 !! l2 = Some (ODict iss)
     | Raise e => fst out1 = Raise e /\ fst out2 = Raise e
     end.
Proof.
  intros out1 out2.
  destruct (detect_issues_obj_refines max_str_digits rows σ)
    as (o1 & o2 & Hs1 & Hf1).
  destruct (detect_issues_obj_refines max_str_digits rows (snd out1))
    as (o1' & o2' & Hs2 & Hf2).
  fold out1 in Hs1, Hf1. fold out2 in Hs2, Hf2.
  split; [rewrite Hs1; by eexists|].
  split; [rewrite Hs2; by eexists|].
  destruct (detect_issues max_str_digits rows) as [iss|e]; [|done].
  destruct Hf1 as [Hf1 ->], Hf2 as [Hf2 ->].
  exists (length σ), (length (snd out1)).
  split; [done|]. split; [done|].
  rewrite Hs2, Hs1.
  split; [rewrite length_app; simpl length; lia|].
  split; [apply store_dict|].
  split; [|apply store_dict].
  rewrite lookup_app_l by (rewrite length_app; simpl; lia).
  apply store_dict.
Qed.

(** * Further properties of [detect_issues] *)

Lemma count_rows_app (f : row -> bool) (a b : list row) :
  count_rows f (a ++ b) = count_rows f a + count_rows f b.
Proof.
  induction a as [|r a IH]; [unfold count_rows; simpl; lia|].
  change ((r :: a) ++ b) with (r :: (a ++ b)). rewrite !count_rows_cons, IH. lia.
Qed.

Lemma count_rows_perm (f : row -> bool) (a b : list row) :
  a ≡ₚ b -> count_rows f a = count_rows f b.
Proof.
  induction 1 as [|r a b _ IH|r r' a|a b c _ IH1 _ IH2].
  - done.
  - by rewrite !count_rows_cons, IH.
  - rewrite !count_rows_cons. lia.
  - congruence.
Qed.

Lemma count_rows_bounds (f : row -> bool) (rows : list row) :
  0 <= count_rows f rows <= Z.of_nat (length rows).
Proof.
  induction rows as [|r rows IH]; [unfold count_rows; simpl; lia|].
  rewrite count_rows_cons. simpl length. destruct (f r); lia.
Qed.

Lemma distinct_ids_app (a b : list row) :
  distinct_ids (a ++ b) = distinct_ids a ∪ distinct_ids b.
Proof. unfold distinct_ids. by rewrite fmap_app, list_to_set_app_L. Qed.

Lemma size_distinct_ids_le (rows : list row) :
  (size (distinct_ids rows) <= length rows)%nat.
Proof.
  unfold distinct_ids. induction rows as [|r rows IH].
  - change (list_to_set (trimmed_id <$> [])) with (∅ : gset string).
    by rewrite size_empty.
  - rewrite fmap_cons, list_to_set_cons, size_union_alt, size_singleton.
    simpl length.
    pose proof (subseteq_size (list_to_set (trimmed_id <$> rows) ∖ {[trimmed_id r]})
                  (list_to_set (trimmed_id <$> rows) : gset string)) as Hsub.
    specialize (Hsub ltac:(set_solver)). lia.
Qed.

Lemma size_distinct_ids_pos (r : row) (rows : list row) :
  (1 <= size (distinct_ids (r :: rows)))%nat.
Proof.
  unfold distinct_ids.
  rewrite fmap_cons, list_to_set_cons, size_union_alt, size_singleton. lia.
Qed.

(** [detect_issues] in closed form. *)
Lemma detect_issues_spec (max_str_digits : Z) (rows : list row) :
  detect_issues max_str_digits rows =
  if decide (Exists null_age rows) then Raise TypeError
  else Ok (mk_issues
             (Z.of_nat (length rows) - Z.of_nat (size (distinct_ids rows)))
             (count_rows name_blank rows)
             (count_rows (age_counted max_str_digits) rows)).
Proof.
  destruct (decide (Exists null_age rows)) as [HE|HE].
  - unfold detect_issues. by rewrite loop_null_age.
  - apply not_Exists_Forall in HE; [|intros r; apply _].
    unfold detect_issues. rewrite loop_total by done. simpl. f_equal.
    destruct (fold_after_row max_str_digits rows fresh_locals)
      as (Hs & Hd & Hm & Hu).
    rewrite Hs in Hd.
    change (l_seen_ids fresh_locals) with (∅ : gset string) in Hd.
    change (duplicate_ids (l_issues fresh_locals)) with 0 in Hd.
    change (missing_name (l_issues fresh_locals)) with 0 in Hm.
    change (underage (l_issues fresh_locals)) with 0 in Hu.
    rewrite (left_id_L ∅ (∪)), size_empty in Hd.
    destruct (l_issues _) as [d mn u]. simpl in *. f_equal; lia.
Qed.

(** X1: [detect_issues] raises exactly when some row has its [age] present
    with the value [None], and the exception is then [TypeError]; no other
    exception escapes it. *)
Theorem detect_issues_only_type_error (max_str_digits : Z) (rows : list row)
    (e : exn) :
  detect_issues max_str_digits rows = Raise e
  <-> e = TypeError /\ exists r, r ∈ rows /\ r !! "age" = Some VNone.
Proof.
  rewrite detect_issues_spec.
  destruct (decide (Exists null_age rows)) as [HE|HE].
  - split.
    + intros [= <-]. split; [done|]. by apply Exists_exists in HE.
    + by intros [-> _].
  - split; [done|]. intros [_ Hr]. destruct HE. by apply Exists_exists.
Qed.

(** X2: the result does not depend on the order of the rows. *)
Theorem detect_issues_permutation (max_str_digits : Z) (rows rows' : list row) :
  rows ≡ₚ rows' ->
  detect_issues max_str_digits rows = detect_issues max_str_digits rows'.
Proof.
  intros Hp. rewrite !detect_issues_spec.
  assert (Hex : Exists null_age rows <-> Exists null_age rows') by by rewrite Hp.
  destruct (decide (Exists null_age rows)), (decide (Exists null_age rows'));
    [done|tauto|tauto|].
  rewrite (Permutation_length Hp), !(count_rows_perm _ _ _ Hp).
  unfold distinct_ids. by rewrite Hp.
Qed.

Lemma detect_issues_permutation_witness :
  detect_issues 4300 example_rows = detect_issues 4300 (reverse example_rows).
Proof.
  apply detect_issues_permutation. symmetry. apply reverse_Permutation.
Defined.

(** X3: every counter returned lies between zero and the number of rows, and
    [duplicate_ids] is below the number of rows when there is a row. *)
Theorem counters_bounded (max_str_digits : Z) (rows : list row) (iss : issues) :
  detect_issues max_str_digits rows = Ok iss ->
  0 <= duplicate_ids iss <= Z.of_nat (length rows)
  /\ 0 <= missing_name iss <= Z.of_nat (length rows)
  /\ 0 <= underage iss <= Z.of_nat (length rows)
  /\ (rows <> [] -> duplicate_ids iss < Z.of_nat (length rows)).
Proof.
  rewrite detect_issues_spec. destruct (decide _); [done|]. intros [= <-].
  cbn [duplicate_ids missing_name underage].
  pose proof (size_distinct_ids_le rows).
  pose proof (count_rows_bounds name_blank rows).
  pose proof (count_rows_bounds (age_counted max_str_digits) rows).
  repeat split; try lia.
  intros Hne. destruct rows as [|r rows']; [done|].
  pose proof (size_distinct_ids_pos r rows'). lia.
Qed.

Lemma counters_bounded_witness :
  0 <= duplicate_ids (mk_issues 1 1 2) <= Z.of_nat (length example_rows)
  /\ 0 <= missing_name (mk_issues 1 1 2) <= Z.of_nat (length example_rows)
  /\ 0 <= underage (mk_issues 1 1 2) <= Z.of_nat (length example_rows)
  /\ (example_rows <> [] ->
      duplicate_ids (mk_issues 1 1 2) < Z.of_nat (length example_rows)).
Proof.
  apply (counters_bounded 4300). vm_compute. reflexivity.
Defined.

Lemma size_list_to_set_NoDup (l : list string) :
  size (list_to_set l : gset string) = length l -> NoDup l.
Proof.
  induction l as [|x l IH]; [constructor|].
  rewrite list_to_set_cons. intros Hsize.
  assert (Hle : (size (list_to_set l : gset string) <= length l)%nat).
  { clear. induction l as [|y l IH].
    - change (list_to_set []) with (∅ : gset string). by rewrite size_empty.
    - rewrite list_to_set_cons, size_union_alt, size_singleton. simpl length.
      pose proof (subseteq_size (list_to_set l ∖ {[y]})
                    (list_to_set l : gset string)) as Hsub.
      specialize (Hsub ltac:(set_solver)). lia. }
  destruct (decide (x ∈ l)) as [Hin|Hin].
  - replace ({[x]} ∪ list_to_set l) with (list_to_set l : gset string) in Hsize
      by set_solver.
    simpl in Hsize. lia.
  - rewrite size_union, size_singleton in Hsize by set_solver.
    simpl in Hsize. apply NoDup_cons. split; [done|]. apply IH. lia.
Qed.

(** X4: a returned [duplicate_ids] is zero exactly when the trimmed
    identifiers of the rows are pairwise distinct. *)
Theorem no_duplicates_iff (max_str_digits : Z) (rows : list row) (iss : issues) :
  detect_issues max_str_digits rows = Ok iss ->
  duplicate_ids iss = 0 <-> NoDup (trimmed_id <$> rows).
Proof.
  rewrite detect_issues_spec. destruct (decide _); [done|]. intros [= <-].
  cbn [duplicate_ids]. unfold distinct_ids. split.
  - intros H. apply size_list_to_set_NoDup. rewrite length_fmap. lia.
  - intros H. rewrite size_list_to_set, length_fmap by done. lia.
Qed.

Lemma no_duplicates_iff_witness :
  duplicate_ids (mk_issues 0 2 0) = 0
  <-> NoDup (trimmed_id <$> [ {[ "customer_id" := VStr "a"; "age" := VStr "20" ]};
                               {[ "customer_id" := VStr "b"; "age" := VStr "30" ]} ]).
Proof.
  apply (no_duplicates_iff 4300). vm_compute. reflexivity.
Defined.

(** X5: scanning two sequences one after the other: [missing_name] and
    [underage] add up, and [duplicate_ids] is the sum of the two counts plus
    the number of identifiers the two sequences share. *)
Theorem detect_issues_app (max_str_digits : Z) (a b : list row)
    (ia ib : issues) :
  detect_issues max_str_digits a = Ok ia ->
  detect_issues max_str_digits b = Ok ib ->
  exists i : issues,
    detect_issues max_str_digits (a ++ b) = Ok i
    /\ missing_name i = missing_name ia + missing_name ib
    /\ underage i = underage ia + underage ib
    /\ duplicate_ids i
       = duplicate_ids ia + duplicate_ids ib
         + Z.of_nat (size (distinct_ids a ∩ distinct_ids b)).
Proof.
  rewrite !detect_issues_spec.
  destruct (decide (Exists null_age a)) as [|Ha]; [done|].
  destruct (decide (Exists null_age b)) as [|Hb]; [done|].
  intros [= <-] [= <-].
  destruct (decide (Exists null_age (a ++ b))) as [Hab|_].
  { apply Exists_app in Hab. tauto. }
  eexists. split; [reflexivity|]. cbn [duplicate_ids missing_name underage].
  rewrite !count_rows_app, distinct_ids_app, length_app.
  split; [done|]. split; [done|].
  rewrite size_union_alt, size_difference_alt.
  pose proof (subseteq_size (distinct_ids b ∩ distinct_ids a) (distinct_ids b))
    as Hsub.
  specialize (Hsub ltac:(set_solver)).
  replace (distinct_ids a ∩ distinct_ids b)
    with (distinct_ids b ∩ distinct_ids a) by set_solver.
  lia.
Qed.

Lemma detect_issues_app_witness :
  exists i : issues,
    detect_issues 4300 (example_rows ++ blank_id_rows) = Ok i
    /\ missing_name i = missing_name (mk_issues 1 1 2) + missing_name (mk_issues 2 4 0)
    /\ underage i = underage (mk_issues 1 1 2) + underage (mk_issues 2 4 0)
    /\ duplicate_ids i
       = duplicate_ids (mk_issues 1 1 2) + duplicate_ids (mk_issues 2 4 0)
         + Z.of_nat (size (distinct_ids example_rows ∩ distinct_ids blank_id_rows)).
Proof.
  apply (detect_issues_app 4300); vm_compute; reflexivity.
Defined.

(** X6: counters only grow along the scan: when the scan of a sequence
    returns, the scan of each of its prefixes returns too, with counters that
    are not larger. *)
Theorem counters_monotone (max_str_digits : Z) (rows more : list row)
    (iss' : issues) :
  detect_issues max_str_digits (rows ++ more) = Ok iss' ->
  exists iss : issues,
    detect_issues max_str_digits rows = Ok iss
    /\ duplicate_ids iss <= duplicate_ids iss'
    /\ missing_name iss <= missing_name iss'
    /\ underage iss <= underage iss'.
Proof.
  rewrite !detect_issues_spec.
  destruct (decide (Exists null_age (rows ++ more))) as [|Hab]; [done|].
  intros [= <-].
  destruct (decide (Exists null_age rows)) as [Ha|_].
  { destruct Hab. apply Exists_app. by left. }
  eexists. split; [reflexivity|]. cbn [duplicate_ids missing_name underage].
  rewrite !count_rows_app, distinct_ids_app, length_app.
  pose proof (count_rows_bounds name_blank more).
  pose proof (count_rows_bounds (age_counted max_str_digits) more).
  pose proof (size_distinct_ids_le more).
  rewrite size_union_alt.
  pose proof (subseteq_size (distinct_ids more ∖ distinct_ids rows)
                (distinct_ids more)) as Hsub.
  specialize (Hsub ltac:(set_solver)). lia.
Qed.

Lemma counters_monotone_witness :
  exists iss : issues,
    detect_issues 4300 (take 2 example_rows) = Ok iss
    /\ duplicate_ids iss <= duplicate_ids (mk_issues 1 1 2)
    /\ missing_name iss <= missing_name (mk_issues 1 1 2)
    /\ underage iss <= underage (mk_issues 1 1 2).
Proof.
  apply (counters_monotone 4300 (take 2 example_rows) (drop 2 example_rows)).
  vm_compute. reflexivity.
Defined.

Lemma loop_body_same_fields (max_str_digits : Z) (st : locals) (r r' : row) :
  same_fields r r' ->
  loop_body max_str_digits st r = loop_body max_str_digits st r'.
Proof.
  intros (Hid & Hname & Hage). unfold loop_body, dict_get, dict_get_default.
  by rewrite Hid, Hname, Hage.
Qed.

(** X7: only the columns [customer_id], [name] and [age] are read: two row
    sequences that agree on them, row by row, give the same result, whatever
    their other columns hold. *)
Theorem other_columns_ignored (max_str_digits : Z) (rows rows' : list row) :
  Forall2 same_fields rows rows' ->
  detect_issues max_str_digits rows = detect_issues max_str_digits rows'.
Proof.
  intros HF. unfold detect_issues. f_equal.
  generalize fresh_locals.
  induction HF as [|r r' rows rows' Hr _ IH]; intros st; [done|].
  cbn [loop]. rewrite (loop_body_same_fields _ _ _ _ Hr).
  destruct (loop_body max_str_digits st r'); simpl; [apply IH|done].
Qed.

Lemma other_columns_ignored_witness :
  detect_issues 4300 [ {[ "customer_id" := VStr "1"; "age" := VStr "30" ]} ]
  = detect_issues 4300
      [ {[ "customer_id" := VStr "1"; "age" := VStr "30";
           "email" := VStr "ann@example.org" ]} ].
Proof.
  apply other_columns_ignored.
  constructor; [|constructor]. repeat split; vm_compute; reflexivity.
Defined.

Lemma lstrip_all_space (a : string) : all_space a = true -> lstrip a = "".
Proof.
  induction a as [|c a IH]; [done|]. simpl.
  intros [Hc Ha]%andb_prop. rewrite Hc. by apply IH.
Qed.

Lemma rstrip_all_space (a : string) : all_space a = true -> rstrip a = "".
Proof.
  induction a as [|c a IH]; [done|]. simpl.
  intros [Hc Ha]%andb_prop. rewrite IH by done. by rewrite Hc.
Qed.

Lemma lstrip_pad (a s : string) :
  all_space a = true -> lstrip (a +:+ s) = lstrip s.
Proof.
  induction a as [|c a IH]; [done|]. simpl.
  intros [Hc Ha]%andb_prop. rewrite Hc. by apply IH.
Qed.

Lemma rstrip_pad (s b : string) :
  all_space b = true -> rstrip (s +:+ b) = rstrip s.
Proof.
  intros Hb. induction s as [|c s IH]; simpl.
  - by apply rstrip_all_space.
  - by rewrite IH.
Qed.

Lemma strip_pad (a s b : string) :
  all_space a = true -> all_space b = true ->
  strip (a +:+ s +:+ b) = strip s.
Proof.
  intros Ha Hb. unfold strip. rewrite lstrip_pad by done.
  induction s as [|c s IH]; simpl.
  - by rewrite lstrip_all_space.
  - destruct (Py_UNICODE_ISSPACE c); [exact IH|].
    change (String c (s +:+ b)) with (String c s +:+ b). by apply rstrip_pad.
Qed.

(** X8: white space around an identifier or a name does not count: a row in
    which the text of [customer_id] or of [name] is padded with white space on
    either side goes through the iteration as the unpadded row does, so a
    padded identifier is a duplicate of the plain one. *)
Theorem padding_ignored (max_str_digits : Z) (st : locals) (r : row)
    (k a s b : string) :
  k = "customer_id" \/ k = "name" ->
  r !! k = Some (VStr s) ->
  all_space a = true -> all_space b = true ->
  loop_body max_str_digits st (<[k := VStr (a +:+ s +:+ b)]> r)
  = loop_body max_str_digits st r.
Proof.
  intros Hk Hr Ha Hb. rewrite !loop_body_eq. unfold dict_get_default.
  assert (Hage : (<[k := VStr (a +:+ s +:+ b)]> r) !! "age" = r !! "age").
  { apply lookup_insert_ne. by destruct Hk as [-> | ->]. }
  rewrite Hage. cbv zeta.
  assert (Hsame : after_id_and_name st (<[k := VStr (a +:+ s +:+ b)]> r)
                  = after_id_and_name st r).
  { unfold after_id_and_name, name_blank, trimmed_name, trimmed_id, text_or_empty.
    destruct Hk as [-> | ->].
    - rewrite lookup_insert_eq, lookup_insert_ne, Hr by done.
      by rewrite strip_pad.
    - rewrite lookup_insert_eq, lookup_insert_ne, Hr by done.
      by rewrite strip_pad. }
  by rewrite Hsame.
Qed.

Lemma padding_ignored_witness :
  loop_body 4300 (mk_locals (mk_issues 0 0 0) {[ "7" ]})
    (<["customer_id" := VStr ("  " +:+ "7" +:+ " ")]>
       {[ "customer_id" := VStr "7"; "name" := VStr "Bo"; "age" := VStr "40" ]})
  = loop_body 4300 (mk_locals (mk_issues 0 0 0) {[ "7" ]})
      {[ "customer_id" := VStr "7"; "name" := VStr "Bo"; "age" := VStr "40" ]}.
Proof.
  apply padding_ignored; [by left|vm_compute; reflexivity|reflexivity..].
Defined.

(** * Further properties of the file system operations and of [run_ingestion] *)

Lemma os_mkdir_ok_dir (p : path) (w w' : world) (u : unit) :
  os_mkdir p w = (Ok u, w') -> is_dir w' p = true.
Proof.
  unfold os_mkdir. destruct (stat w p) eqn:Hp; [done|].
  apply stat_None in Hp as [Hne _].
  destruct (stat w (parent p)) as [[|b]|]; [|done..].
  intros [= _ <-]. apply is_dir_stat.
  destruct p as [|c p]; [done|]. simpl. apply lookup_insert_eq.
Qed.

Lemma mkdir_exist_ok_dir (p : path) (w w' : world) (u : unit) :
  mkdir_exist_ok p w = (Ok u, w') -> is_dir w' p = true.
Proof.
  unfold mkdir_exist_ok.
  destruct (os_mkdir p w) as [[u'|e] w1] eqn:Hm.
  - intros [= _ <-]. by eapply os_mkdir_ok_dir.
  - destruct e; try done;
      (destruct (is_dir w1 p) eqn:Hd; [by intros [= _ <-]|done]).
Qed.

Lemma mkdir_parents_rev_dir (rp : list string) (w w' : world) (u : unit) :
  mkdir_parents_rev rp w = (Ok u, w') -> is_dir w' (rev rp) = true.
Proof.
  destruct rp as [|c rp]; [done|]. cbn [mkdir_parents_rev].
  destruct (os_mkdir (rev (c :: rp)) w) as [[u'|e] w1] eqn:Hm.
  - intros [= _ <-]. by eapply os_mkdir_ok_dir.
  - destruct e;
      try (destruct (is_dir w1 (rev (c :: rp))) eqn:Hd; [by intros [= _ <-]|done]).
    rewrite io_bind_eq.
    destruct (mkdir_parents_rev rp w1) as [[u'|e] w2]; [|done].
    apply mkdir_exist_ok_dir.
Qed.

Lemma mkdir_parents_rev_existing (rp : list string) (w : world) :
  is_dir w (rev rp) = true -> mkdir_parents_rev rp w = (Ok tt, w).
Proof.
  intros Hd. pose proof Hd as Hs. apply is_dir_stat in Hs.
  destruct rp as [|c rp]; cbn [mkdir_parents_rev]; unfold os_mkdir;
    rewrite Hs; by rewrite ?Hd.
Qed.

(** X9: [Path.mkdir(parents=True, exist_ok=True)] that succeeds leaves a
    directory at the path, and asking again changes nothing. *)
Theorem Path_mkdir_idempotent (p : path) (w w' : world) :
  Path_mkdir p w = (Ok tt, w') ->
  is_dir w' p = true /\ Path_mkdir p w' = (Ok tt, w').
Proof.
  unfold Path_mkdir. intros H. apply mkdir_parents_rev_dir in H.
  split; [by rewrite rev_involutive in H|].
  by apply mkdir_parents_rev_existing.
Qed.

Lemma Path_mkdir_idempotent_witness :
  let w' := snd (Path_mkdir LANDING_DIR (mk_world ∅ [])) in
  is_dir w' LANDING_DIR = true /\ Path_mkdir LANDING_DIR w' = (Ok tt, w').
Proof.
  intros w'. apply (Path_mkdir_idempotent LANDING_DIR (mk_world ∅ [])).
  vm_compute. reflexivity.
Defined.

Lemma opened_lookup_ne (f : gmap (list string) node) (p q : path) :
  q <> p -> opened f p !! q = f !! q.
Proof.
  intros Hq. unfold opened. destruct (f !! p); [done|].
  by rewrite lookup_insert_ne.
Qed.

Lemma opened_existing (f : gmap (list string) node) (p : path) (n : node) :
  f !! p = Some n -> opened f p = f.
Proof. intros H. unfold opened. by rewrite H. Qed.

Lemma opened_keeps (f : gmap (list string) node) (p q : path) :
  is_Some (f !! q) -> is_Some (opened f p !! q).
Proof.
  intros Hq. unfold opened. destruct (f !! p) eqn:Hp; [done|].
  rewrite lookup_insert. by case_decide.
Qed.

(** Every way a run can end. *)
Lemma run_ingestion_outcomes (max_str_digits : Z) (stdout_encodes : Z -> bool)
    (csv_rows : string -> result (list row)) (ENV : text) (now : datetime)
    (w w' : world) (r : result unit) :
  run_ingestion max_str_digits stdout_encodes csv_rows ENV now w = (r, w') ->
  exists w1 : world,
    adds_dirs [LOGS_DIR; LANDING_DIR; ["data"]] w w1
    /\ ((w' = w1 /\ exists e, r = Raise e)
        \/ exists (content : string) (rows : list row) (iss : issues),
             fs w1 !! SOURCE_FILE = Some (File content)
             /\ csv_rows content = Ok rows
             /\ detect_issues max_str_digits rows = Ok iss
             /\ let d := copy_destination w SOURCE_FILE (target_file now) in
                let msg := log_msg ENV (target_file now)
                             (Z.of_nat (length rows)) iss (strftime now) in
                let copied := <[d := File content]> (fs w1) in
                ((exists e, r = Raise e)
                 /\ (w' = mk_world copied (stdout w)
                     \/ w' = mk_world copied (stdout w ++ msg ++ text_of nl)
                     \/ w' = mk_world (opened copied LOG_FILE)
                               (stdout w ++ msg ++ text_of nl)))
                \/ (exists data : string,
                      r = Ok tt /\ utf8_encode msg = Ok data
                      /\ w' = mk_world
                                (<[LOG_FILE := File (log_content w +:+ data)]> copied)
                                (stdout w ++ msg ++ text_of nl))).
Proof.
  intros Hrun. destruct r as [[]|e].
  { apply run_ingestion_success in Hrun
      as (w1 & content & rows & iss & data & Hadds & Hsrc & Hcsv & Hdet & _ & Hutf & ->).
    exists w1. split; [done|]. right. exists content, rows, iss.
    split; [done|]. split; [done|]. split; [done|]. right. by exists data. }
  rewrite run_ingestion_eq in Hrun.
  destruct (Path_mkdir LOGS_DIR w) as [[[]|e'] wa] eqn:Ha.
  2:{ injection Hrun as <- <-. exists wa. split; [|left; eauto].
      eapply adds_dirs_mono; [|by eapply logs_mkdir_adds]. set_solver. }
  destruct (Path_mkdir LANDING_DIR wa) as [[[]|e'] w1] eqn:H1.
  2:{ injection Hrun as <- <-. exists w1. split; [|left; eauto].
      by eapply prepare_adds. }
  pose proof (prepare_adds _ _ _ _ _ Ha H1) as Hadds.
  exists w1. split; [done|].
  destruct (fs w1 !! SOURCE_FILE) as [[|content]|] eqn:Hsrc;
    [injection Hrun as <- <-; left; eauto| |injection Hrun as <- <-; left; eauto].
  destruct (csv_rows content) as [rows|e'] eqn:Hcsv;
    [|injection Hrun as <- <-; left; eauto].
  destruct (detect_issues max_str_digits rows) as [iss|e'] eqn:Hdet;
    [|injection Hrun as <- <-; left; eauto].
  destruct (copy2 SOURCE_FILE (target_file now) w1) as [[[]|e'] w2] eqn:Hcopy.
  2:{ apply copy2_cases in Hcopy as [(e'' & _ & ->)|([=] & _)].
      injection Hrun as <- <-. left; eauto. }
  apply copy2_cases in Hcopy as [(e'' & [=] & _)|(_ & b & Hb & ->)].
  change (stat w1 SOURCE_FILE) with (fs w1 !! SOURCE_FILE) in Hb.
  rewrite Hsrc in Hb. injection Hb as <-.
  rewrite (copy_destination_adds _ _ _ Hadds) in Hrun.
  right. exists content, rows, iss.
  split; [done|]. split; [done|]. split; [done|]. cbv zeta. left.
  assert (Hout : stdout w1 = stdout w) by apply Hadds.
  rewrite emit_eq in Hrun by apply log_msg_has_nl.
  destruct (forallb stdout_encodes _).
  2:{ split_pair Hrun. split; [eauto|]. left. unfold set_fs. by rewrite Hout. }
  unfold printed, set_fs in Hrun. cbn [fs stdout] in Hrun. rewrite Hout in Hrun.
  destruct (append_text_cases LOG_FILE
              (<[copy_destination w SOURCE_FILE (target_file now) := File content]>
                 (fs w1))) as [(e' & Hfail)|Hok]; [done| |].
  - rewrite Hfail in Hrun. split_pair Hrun. split; [eauto|]. right. by left.
  - rewrite Hok in Hrun. destruct (utf8_encode _) as [data|e'].
    + by split_pair Hrun.
    + split_pair Hrun. split; [eauto|]. right. by right.
Qed.

Lemma copy_destination_not_source (w : world) (now : datetime) :
  copy_destination w SOURCE_FILE (target_file now) <> SOURCE_FILE.
Proof.
  destruct (copy_destination_cases w now) as [-> | ->]; discriminate.
Qed.

Lemma append_empty_r (s : string) : s +:+ "" = s.
Proof.
  induction s as [|c s IH]; [done|].
  change (String c (s +:+ "") = String c s). by rewrite IH.
Qed.

(** X10: however a run ends, it removes nothing, and a path other than the
    log and the copy's destination holds what it held before, or a new
    directory if it was empty and is one of [logs], [data], [data/landing]. *)
Theorem run_ingestion_frame (max_str_digits : Z) (stdout_encodes : Z -> bool)
    (csv_rows : string -> result (list row)) (ENV : text) (now : datetime)
    (w w' : world) (r : result unit) :
  run_ingestion max_str_digits stdout_encodes csv_rows ENV now w = (r, w') ->
  (forall p, is_Some (fs w !! p) -> is_Some (fs w' !! p))
  /\ (forall p, p <> LOG_FILE ->
        p <> copy_destination w SOURCE_FILE (target_file now) ->
        fs w' !! p = fs w !! p
        \/ (fs w !! p = None /\ fs w' !! p = Some Dir
            /\ p ∈ [LOGS_DIR; LANDING_DIR; ["data"]])).
Proof.
  intros Hrun.
  apply run_ingestion_outcomes in Hrun as (w1 & Hadds & Hcases).
  assert (Hkeep : forall p, is_Some (fs w !! p) -> is_Some (fs w1 !! p)).
  { intros p [n Hn]. exists n. by eapply adds_dirs_keeps. }
  destruct Hcases as [[-> _]|(content & rows & iss & _ & _ & _ & Hw')].
  { split; [done|]. intros p _ _. apply Hadds. }
  cbv zeta in Hw'.
  assert (Hcopied : forall p, is_Some (fs w !! p) ->
            is_Some (<[copy_destination w SOURCE_FILE (target_file now)
                       := File content]> (fs w1) !! p)).
  { intros p Hp. rewrite lookup_insert. case_decide; [done|by apply Hkeep]. }
  destruct Hw' as [[_ [-> | [-> | ->]]]|(data & _ & _ & ->)]; cbn [fs]; split.
  - exact Hcopied.
  - intros p _ Hd. rewrite lookup_insert_ne by done. apply Hadds.
  - exact Hcopied.
  - intros p _ Hd. rewrite lookup_insert_ne by done. apply Hadds.
  - intros p Hp. by apply opened_keeps, Hcopied.
  - intros p Hl Hd. rewrite opened_lookup_ne, lookup_insert_ne by done.
    apply Hadds.
  - intros p Hp. rewrite lookup_insert. case_decide; [done|by apply Hcopied].
  - intros p Hl Hd. rewrite !lookup_insert_ne by done. apply Hadds.
Qed.

Lemma run_ingestion_frame_witness :
  let out := run_ingestion 4300 utf8_stdout demo_csv (text_of "dev") demo_now
               world_with_source in
  (forall p, is_Some (fs world_with_source !! p) -> is_Some (fs (snd out) !! p))
  /\ (forall p, p <> LOG_FILE ->
        p <> copy_destination world_with_source SOURCE_FILE (target_file demo_now) ->
        fs (snd out) !! p = fs world_with_source !! p
        \/ (fs world_with_source !! p = None /\ fs (snd out) !! p = Some Dir
            /\ p ∈ [LOGS_DIR; LANDING_DIR; ["data"]])).
Proof.
  intros out.
  apply (run_ingestion_frame 4300 utf8_stdout demo_csv (text_of "dev") demo_now
           world_with_source (snd out) (fst out)).
  apply surjective_pairing.
Defined.

(** X11: however a run ends, the source file is what it was. *)
Theorem source_untouched (max_str_digits : Z) (stdout_encodes : Z -> bool)
    (csv_rows : string -> result (list row)) (ENV : text) (now : datetime)
    (w w' : world) (r : result unit) :
  run_ingestion max_str_digits stdout_encodes csv_rows ENV now w = (r, w') ->
  fs w' !! SOURCE_FILE = fs w !! SOURCE_FILE.
Proof.
  intros Hrun.
  apply run_ingestion_outcomes in Hrun as (w1 & Hadds & Hcases).
  assert (H1 : fs w1 !! SOURCE_FILE = fs w !! SOURCE_FILE).
  { apply (adds_dirs_lookup _ _ _ _ Hadds), source_not_prepared. }
  destruct Hcases as [[-> _]|(content & rows & iss & _ & _ & _ & Hw')]; [done|].
  cbv zeta in Hw'. pose proof (copy_destination_not_source w now) as Hne.
  destruct Hw' as [[_ [-> | [-> | ->]]]|(data & _ & _ & ->)]; cbn [fs];
    by rewrite ?opened_lookup_ne, ?(lookup_insert_ne _ LOG_FILE), lookup_insert_ne.
Qed.

Lemma source_untouched_witness :
  fs (snd (run_ingestion 4300 utf8_stdout demo_csv (text_of "dev") demo_now
             world_with_source))
    !! SOURCE_FILE
  = fs world_with_source !! SOURCE_FILE.
Proof.
  apply (source_untouched 4300 utf8_stdout demo_csv (text_of "dev") demo_now
           world_with_source _
           (fst (run_ingestion 4300 utf8_stdout demo_csv (text_of "dev") demo_now
                   world_with_source))).
  apply surjective_pairing.
Defined.

(** X12: however a run ends, an existing log is never shortened or
    rewritten: it holds its earlier bytes followed by a suffix, which is
    empty when the run raised; and what was printed before is still there,
    followed by what the run printed. *)
Theorem log_append_only (max_str_digits : Z) (stdout_encodes : Z -> bool)
    (csv_rows : string -> result (list row)) (ENV : text) (now : datetime)
    (w w' : world) (r : result unit) (old : string) :
  fs w !! LOG_FILE = Some (File old) ->
  run_ingestion max_str_digits stdout_encodes csv_rows ENV now w = (r, w') ->
  (exists suffix : string,
     fs w' !! LOG_FILE = Some (File (old +:+ suffix))
     /\ (forall e, r = Raise e -> suffix = ""))
  /\ exists out : text, stdout w' = stdout w ++ out.
Proof.
  intros Hlog Hrun.
  apply run_ingestion_outcomes in Hrun as (w1 & Hadds & Hcases).
  assert (H1 : fs w1 !! LOG_FILE = Some (File old)) by by eapply adds_dirs_keeps.
  destruct Hcases as [[-> _]|(content & rows & iss & _ & _ & _ & Hw')].
  { split.
    - exists "". by rewrite append_empty_r.
    - exists []. destruct Hadds as [-> _]. by rewrite app_nil_r. }
  cbv zeta in Hw'.
  assert (Hc : <[copy_destination w SOURCE_FILE (target_file now) := File content]>
                 (fs w1) !! LOG_FILE = Some (File old)).
  { by rewrite lookup_insert_ne by apply copy_destination_not_log. }
  destruct Hw' as [[_ [-> | [-> | ->]]]|(data & -> & _ & ->)]; cbn [fs stdout]; split.
  - exists "". by rewrite append_empty_r.
  - exists []. by rewrite app_nil_r.
  - exists "". by rewrite append_empty_r.
  - by eexists.
  - exists "". rewrite append_empty_r. by rewrite (opened_existing _ _ _ Hc).
  - by eexists.
  - eexists. rewrite lookup_insert_eq. unfold log_content. rewrite Hlog.
    split; [reflexivity|done].
  - by eexists.
Qed.

Lemma log_append_only_witness :
  let out := run_ingestion 4300 utf8_stdout demo_csv (text_of "dev") demo_now
               world_with_source in
  (exists suffix : string,
     fs (snd out) !! LOG_FILE = Some (File ("earlier entry" +:+ suffix))
     /\ (forall e, fst out = Raise e -> suffix = ""))
  /\ exists printed : text, stdout (snd out) = stdout world_with_source ++ printed.
Proof.
  intros out.
  apply (log_append_only 4300 utf8_stdout demo_csv (text_of "dev") demo_now
           world_with_source (snd out) (fst out)).
  - vm_compute. reflexivity.
  - apply surjective_pairing.
Defined.

(** X13: one row whose [age] is [None] blocks the whole ingestion: the run
    raises, no landing file is written, the log gets no entry and nothing is
    printed; when the directories exist or can be created, the exception is the
    [TypeError] of [detect_issues]. *)
Theorem null_age_blocks_ingestion (max_str_digits : Z)
    (stdout_encodes : Z -> bool)
    (csv_rows : string -> result (list row)) (ENV : text) (now : datetime)
    (w w' : world) (r : result unit) (content : string) (rows : list row) :
  fs w !! SOURCE_FILE = Some (File content) ->
  csv_rows content = Ok rows ->
  Exists null_age rows ->
  run_ingestion max_str_digits stdout_encodes csv_rows ENV now w = (r, w') ->
  (exists e, r = Raise e)
  /\ adds_dirs [LOGS_DIR; LANDING_DIR; ["data"]] w w'
  /\ (is_file w LOGS_DIR = false -> is_file w ["data"] = false ->
      is_file w LANDING_DIR = false -> r = Raise TypeError).
Proof.
  intros Hsrc Hcsv Hnull Hrun.
  assert (Hdet : detect_issues max_str_digits rows = Raise TypeError).
  { unfold detect_issues. by rewrite loop_null_age. }
  pose proof Hrun as Hout.
  apply run_ingestion_outcomes in Hout as (w1 & Hadds & Hcases).
  assert (H1 : fs w1 !! SOURCE_FILE = Some (File content))
    by by eapply adds_dirs_keeps.
  destruct Hcases as [[-> Hexn]|(content' & rows' & iss & Hsrc' & Hcsv' & Hdet' & _)].
  2:{ rewrite H1 in Hsrc'. injection Hsrc' as <-.
      rewrite Hcsv in Hcsv'. injection Hcsv' as <-. congruence. }
  split; [done|]. split; [done|].
  intros Hlogs Hdata Hlanding.
  destruct (prepare_ok w Hlogs Hdata Hlanding) as (wa & wb & Ha & Hb).
  rewrite run_ingestion_eq, Ha, Hb in Hrun.
  rewrite (adds_dirs_keeps _ _ _ _ _ (prepare_adds _ _ _ _ _ Ha Hb) Hsrc) in Hrun.
  rewrite Hcsv, Hdet in Hrun. by injection Hrun as <- _.
Qed.

Lemma null_age_blocks_ingestion_witness :
  let out := run_ingestion 4300 utf8_stdout (fun _ => Ok [short_row])
               (text_of "dev") demo_now world_with_source in
  fst out = Raise TypeError
  /\ adds_dirs [LOGS_DIR; LANDING_DIR; ["data"]] world_with_source (snd out).
Proof.
  intros out.
  destruct (null_age_blocks_ingestion 4300 utf8_stdout (fun _ => Ok [short_row])
              (text_of "dev") demo_now world_with_source (snd out) (fst out)
              "customer_id,name,age" [short_row])
    as (_ & Hadds & Hexn).
  - vm_compute. reflexivity.
  - reflexivity.
  - constructor. vm_compute. reflexivity.
  - apply surjective_pairing.
  - split; [apply Hexn; vm_compute; reflexivity|exact Hadds].
Defined.

Lemma prepare_dirs (w wa w1 : world) :
  Path_mkdir LOGS_DIR w = (Ok tt, wa) ->
  Path_mkdir LANDING_DIR wa = (Ok tt, w1) ->
  fs w1 !! LOGS_DIR = Some Dir /\ fs w1 !! LANDING_DIR = Some Dir.
Proof.
  intros Ha H1.
  pose proof (mkdir_parents_rev_dir _ _ _ _ Ha) as Hlogs.
  pose proof (mkdir_parents_rev_dir _ _ _ _ H1) as Hlanding.
  apply is_dir_stat in Hlogs, Hlanding.
  split; [|exact Hlanding].
  eapply adds_dirs_keeps; [by eapply landing_mkdir_adds|exact Hlogs].
Qed.

Lemma parent_copy_destination (w : world) (now : datetime) :
  is_dir w (target_file now) = true
  /\ parent (copy_destination w SOURCE_FILE (target_file now)) = target_file now
  \/ is_dir w (target_file now) = false
  /\ copy_destination w SOURCE_FILE (target_file now) = target_file now
  /\ parent (copy_destination w SOURCE_FILE (target_file now)) = LANDING_DIR.
Proof.
  unfold copy_destination. destruct (is_dir w (target_file now)); [left|right]; done.
Qed.


Lemma copy_destination_not_logs_landing (w : world) (now : datetime) :
  copy_destination w SOURCE_FILE (target_file now) <> LOGS_DIR
  /\ copy_destination w SOURCE_FILE (target_file now) <> LANDING_DIR.
Proof.
  destruct (copy_destination_cases w now) as [-> | ->]; split; discriminate.
Qed.

(** X15: after a run that completes, [logs] and [data/landing] are
    directories. *)
Theorem directories_exist_after_run (max_str_digits : Z)
    (stdout_encodes : Z -> bool)
    (csv_rows : string -> result (list row)) (ENV : text) (now : datetime)
    (w w' : world) :
  run_ingestion max_str_digits stdout_encodes csv_rows ENV now w = (Ok tt, w') ->
  fs w' !! LOGS_DIR = Some Dir /\ fs w' !! LANDING_DIR = Some Dir.
Proof.
  intros Hrun.
  apply run_ingestion_success_steps in Hrun
    as (wa & w1 & content & rows & iss & data & Ha & H1 & _ & _ & _ & _ & _ & ->).
  destruct (prepare_dirs _ _ _ Ha H1) as [Hlogs Hlanding].
  destruct (copy_destination_not_logs_landing w now) as [Hn1 Hn2].
  cbn [fs]. by rewrite !lookup_insert_ne.
Qed.

Lemma directories_exist_after_run_witness :
  let w' := snd (run_ingestion 4300 utf8_stdout demo_csv (text_of "dev") demo_now
                   world_with_source) in
  fs w' !! LOGS_DIR = Some Dir /\ fs w' !! LANDING_DIR = Some Dir.
Proof.
  intros w'.
  apply (directories_exist_after_run 4300 utf8_stdout demo_csv (text_of "dev")
           demo_now world_with_source).
  vm_compute. reflexivity.
Defined.

(** X16: when a run that completed is repeated at the same clock reading
    and completes again, the second run has read the same rows and counted
    the same issues, has written the same bytes to the same landing file and
    has changed nothing but the log, which then holds both summaries after
    its earlier content. *)
Theorem rerun_same_instant (max_str_digits : Z) (stdout_encodes : Z -> bool)
    (csv_rows : string -> result (list row)) (ENV1 ENV2 : text)
    (now : datetime) (w w1 w2 : world) :
  run_ingestion max_str_digits stdout_encodes csv_rows ENV1 now w = (Ok tt, w1) ->
  run_ingestion max_str_digits stdout_encodes csv_rows ENV2 now w1 = (Ok tt, w2) ->
  exists (rows : list row) (iss : issues) (data1 data2 : string),
    (forall p, p <> LOG_FILE -> fs w2 !! p = fs w1 !! p)
    /\ let summary := fun ENV =>
         log_msg ENV (target_file now) (Z.of_nat (length rows)) iss
           (strftime now) in
       utf8_encode (summary ENV1) = Ok data1
       /\ utf8_encode (summary ENV2) = Ok data2
       /\ fs w1 !! LOG_FILE = Some (File (log_content w +:+ data1))
       /\ fs w2 !! LOG_FILE
          = Some (File ((log_content w +:+ data1) +:+ data2))
       /\ stdout w2 = (stdout w ++ summary ENV1 ++ text_of nl)
                      ++ summary ENV2 ++ text_of nl.
Proof.
  intros Hrun Hrun2.
  apply run_ingestion_success_steps in Hrun
    as (wa & wp & content & rows & iss & data1 & Ha & Hp & Hsrc & Hcsv & Hdet
        & _ & Hutf1 & Hw1).
  cbv zeta in Hutf1, Hw1.
  destruct (prepare_dirs _ _ _ Ha Hp) as [Hlogs Hlanding].
  pose proof (prepare_adds _ _ _ _ _ Ha Hp) as Hadds.
  destruct (copy_destination_not_logs_landing w now) as [Hn1 Hn2].
  pose proof (copy_destination_not_log w now) as Hn3.
  pose proof (copy_destination_not_source w now) as Hn4.
  set (d := copy_destination w SOURCE_FILE (target_file now)) in *.
  set (s1 := log_msg ENV1 (target_file now) (Z.of_nat (length rows)) iss
               (strftime now)) in *.
  (* what the first run left *)
  assert (Hv_logs : fs w1 !! LOGS_DIR = Some Dir).
  { subst w1. cbn [fs]. by rewrite !lookup_insert_ne. }
  assert (Hv_landing : fs w1 !! LANDING_DIR = Some Dir).
  { subst w1. cbn [fs]. by rewrite !lookup_insert_ne. }
  assert (Hv_src : fs w1 !! SOURCE_FILE = Some (File content)).
  { subst w1. cbn [fs]. by rewrite !lookup_insert_ne. }
  assert (Hv_d : fs w1 !! d = Some (File content)).
  { subst w1. cbn [fs]. rewrite lookup_insert_ne by done. apply lookup_insert_eq. }
  assert (Hv_log : fs w1 !! LOG_FILE = Some (File (log_content w +:+ data1))).
  { subst w1. cbn [fs]. apply lookup_insert_eq. }
  assert (Hv_out : stdout w1 = stdout w ++ s1 ++ text_of nl).
  { by subst w1. }
  assert (Hv_dest : copy_destination w1 SOURCE_FILE (target_file now) = d).
  { destruct (parent_copy_destination w now) as [[Hdir Hpar]|(Hdir & Hd & _)].
    - assert (Hd : d = joinpath (target_file now) (basename SOURCE_FILE)).
      { subst d. unfold copy_destination. by rewrite Hdir. }
      assert (Hdir1 : is_dir w1 (target_file now) = true).
      { apply is_dir_stat. apply is_dir_stat in Hdir.
        assert (Hne : d <> target_file now).
        { rewrite Hd, target_file_cons. discriminate. }
        rewrite target_file_cons in *. rewrite stat_cons in *.
        rewrite Hw1. cbn [fs]. rewrite !lookup_insert_ne by (done || discriminate).
        by eapply adds_dirs_keeps. }
      unfold copy_destination at 1. by rewrite Hdir1.
    - fold d in Hd.
      assert (Hdir1 : is_dir w1 (target_file now) = false).
      { unfold is_dir. rewrite <- Hd. destruct d as [|c d']; [done|].
        rewrite stat_cons, Hv_d. done. }
      unfold copy_destination at 1. by rewrite Hdir1. }
  (* the directory step of the second run changes nothing *)
  assert (Hmk_logs : Path_mkdir LOGS_DIR w1 = (Ok tt, w1)).
  { apply mkdir_parents_rev_existing, is_dir_stat. exact Hv_logs. }
  assert (Hmk_landing : Path_mkdir LANDING_DIR w1 = (Ok tt, w1)).
  { apply mkdir_parents_rev_existing, is_dir_stat. exact Hv_landing. }
  apply run_ingestion_success_steps in Hrun2
    as (wa' & wp' & content' & rows' & iss' & data2 & Ha' & Hp' & Hsrc' & Hcsv'
        & Hdet' & _ & Hutf2 & Hw2).
  rewrite Hmk_logs in Ha'. injection Ha' as <-.
  rewrite Hmk_landing in Hp'. injection Hp' as <-.
  rewrite Hv_src in Hsrc'. injection Hsrc' as <-.
  rewrite Hcsv in Hcsv'. injection Hcsv' as <-.
  rewrite Hdet in Hdet'. injection Hdet' as <-.
  cbv zeta in Hutf2, Hw2. rewrite Hv_dest in Hw2.
  assert (Hlc : log_content w1 = log_content w +:+ data1).
  { unfold log_content at 1. by rewrite Hv_log. }
  rewrite Hlc, Hv_out in Hw2.
  exists rows, iss, data1, data2. split.
  - intros p Hp1. rewrite Hw2. cbn [fs]. rewrite lookup_insert_ne by done.
    destruct (decide (d = p)) as [<-|Hne].
    + by rewrite lookup_insert_eq.
    + by rewrite lookup_insert_ne.
  - cbv zeta. split; [exact Hutf1|]. split; [exact Hutf2|].
    split; [exact Hv_log|]. rewrite Hw2. cbn [fs stdout].
    split; [apply lookup_insert_eq|done].
Qed.

Lemma rerun_same_instant_witness :
  let w1 := snd (run_ingestion 4300 utf8_stdout demo_csv (text_of "dev") demo_now
                   world_with_source) in
  let w2 := snd (run_ingestion 4300 utf8_stdout demo_csv (text_of "prod")
                   demo_now w1) in
  exists (rows : list row) (iss : issues) (data1 data2 : string),
    (forall p, p <> LOG_FILE -> fs w2 !! p = fs w1 !! p)
    /\ let summary := fun ENV =>
         log_msg ENV (target_file demo_now) (Z.of_nat (length rows)) iss
           (strftime demo_now) in
       utf8_encode (summary (text_of "dev")) = Ok data1
       /\ utf8_encode (summary (text_of "prod")) = Ok data2
       /\ fs w1 !! LOG_FILE
          = Some (File (log_content world_with_source +:+ data1))
       /\ fs w2 !! LOG_FILE
          = Some (File ((log_content world_with_source +:+ data1) +:+ data2))
       /\ stdout w2 = (stdout world_with_source ++ summary (text_of "dev")
                       ++ text_of nl)
                      ++ summary (text_of "prod") ++ text_of nl.
Proof.
  intros w1 w2.
  apply (rerun_same_instant 4300 utf8_stdout demo_csv (text_of "dev")
           (text_of "prod") demo_now world_with_source).
  - vm_compute. reflexivity.
  - vm_compute. reflexivity.
Defined.

(** X17: where the copy lands.  After a run that completes, the path named
    in the summary holds the source's bytes, unless a directory stood at that
    path: then the directory stays and the copy is the file [customers.csv]
    inside it. *)
Theorem landing_file_location (max_str_digits : Z) (stdout_encodes : Z -> bool)
    (csv_rows : string -> result (list row)) (ENV : text) (now : datetime)
    (w w' : world) :
  run_ingestion max_str_digits stdout_encodes csv_rows ENV now w = (Ok tt, w') ->
  exists content : string,
    fs w !! SOURCE_FILE = Some (File content)
    /\ match fs w !! target_file now with
       | Some Dir =>
           fs w' !! target_file now = Some Dir
           /\ fs w' !! joinpath (target_file now) "customers.csv"
              = Some (File content)
       | _ => fs w' !! target_file now = Some (File content)
       end.
Proof.
  intros Hrun.
  apply run_ingestion_success in Hrun
    as (w1 & content & rows & iss & data & Hadds & Hsrc & _ & _ & _ & _ & ->).
  exists content. split; [by eapply adds_dirs_files|]. cbn [fs].
  unfold copy_destination, is_dir. rewrite target_file_cons, stat_cons.
  destruct (fs w !! _) as [[|b]|] eqn:Ht.
  - split.
    + rewrite !lookup_insert_ne by discriminate. by eapply adds_dirs_keeps.
    + rewrite lookup_insert_ne by discriminate. apply lookup_insert_eq.
  - rewrite lookup_insert_ne by discriminate. apply lookup_insert_eq.
  - rewrite lookup_insert_ne by discriminate. apply lookup_insert_eq.
Qed.

Lemma landing_file_location_witness :
  let w := mk_world {[ SOURCE_FILE := File "customer_id,name,age";
                       ["data"; "source"] := Dir;
                       target_file demo_now := Dir;
                       LANDING_DIR := Dir; ["data"] := Dir ]} [] in
  let w' := snd (run_ingestion 4300 utf8_stdout demo_csv (text_of "dev")
                   demo_now w) in
  exists content : string,
    fs w !! SOURCE_FILE = Some (File content)
    /\ match fs w !! target_file demo_now with
       | Some Dir =>
           fs w' !! target_file demo_now = Some Dir
           /\ fs w' !! joinpath (target_file demo_now) "customers.csv"
              = Some (File content)
       | _ => fs w' !! target_file demo_now = Some (File content)
       end.
Proof.
  intros w w'.
  apply (landing_file_location 4300 utf8_stdout demo_csv (text_of "dev")
           demo_now w).
  vm_compute. reflexivity.
Defined.

(** X18: run as a program, the label in the summary of a completed run is
    the value of the environment variable [ENV], the empty string included,
    and [dev] when the variable is not set. *)
Theorem label_from_environment (max_str_digits : Z) (stdout_encodes : Z -> bool)
    (csv_rows : string -> result (list row)) (environ : gmap string text)
    (now : datetime) (w w' : world) :
  main max_str_digits stdout_encodes csv_rows environ now w = (Ok tt, w') ->
  exists (rows : list row) (iss : issues),
    stdout w' = stdout w
      ++ (text_of "[OK] Ingestion completed | ENV="
          ++ match environ !! "ENV" with
             | Some v => v
             | None => text_of "dev"
             end
          ++ text_of (summary_tail (target_file now) (Z.of_nat (length rows))
                        iss (strftime now)))
      ++ text_of nl.
Proof.
  unfold main. intros Hrun.
  apply run_ingestion_success in Hrun
    as (w1 & content & rows & iss & data & _ & _ & _ & _ & _ & _ & ->).
  exists rows, iss. cbn [stdout]. rewrite log_msg_label.
  unfold resolve_ENV, os_getenv. by destruct (environ !! "ENV").
Qed.

Lemma label_from_environment_witness :
  exists (rows : list row) (iss : issues),
    stdout (snd (main 4300 utf8_stdout demo_csv ∅ demo_now world_with_source))
    = stdout world_with_source
      ++ (text_of "[OK] Ingestion completed | ENV="
          ++ match (∅ : gmap string text) !! "ENV" with
             | Some v => v
             | None => text_of "dev"
             end
          ++ text_of (summary_tail (target_file demo_now)
                        (Z.of_nat (length rows)) iss (strftime demo_now)))
      ++ text_of nl.
Proof.
  apply (label_from_environment 4300 utf8_stdout demo_csv ∅ demo_now
           world_with_source).
  vm_compute. reflexivity.
Defined.

(** * Further properties of the timestamp *)

Lemma zfill2_digits (n : Z) :
  0 <= n < 100 ->
  zfill 2 n = String (digit_char (n / 10)) (String (digit_char (n mod 10)) "").
Proof.
  intros Hn.
  assert (Hall : forallb (fun k : nat =>
            String.eqb (zfill 2 (Z.of_nat k))
              (String (digit_char (Z.of_nat k / 10))
                 (String (digit_char (Z.of_nat k mod 10)) "")))
            (seq 0 100) = true) by (vm_compute; reflexivity).
  rewrite forallb_forall in Hall.
  specialize (Hall (Z.to_nat n)). rewrite Z2Nat.id in Hall by lia.
  apply String.eqb_eq, Hall, in_seq. lia.
Qed.

Lemma pretty_N_char_digit_char (x : N) :
  (x < 10)%N -> pretty_N_char x = digit_char (Z.of_N x).
Proof.
  intros Hx.
  assert (x = 0 \/ x = 1 \/ x = 2 \/ x = 3 \/ x = 4 \/ x = 5 \/ x = 6
          \/ x = 7 \/ x = 8 \/ x = 9)%N as Hcases by lia.
  repeat (destruct Hcases as [->|Hcases]; [reflexivity|]). by subst.
Qed.

Lemma zfill4_digits (n : Z) :
  1000 <= n < 10000 ->
  zfill 4 n = String (digit_char (n / 1000))
                (String (digit_char (n / 100 mod 10))
                   (String (digit_char (n / 10 mod 10))
                      (String (digit_char (n mod 10)) ""))).
Proof.
  intros Hn. destruct n as [|p|p]; [lia| |lia].
  unfold zfill. change (pretty (Z.pos p)) with (pretty (N.pos p)).
  unfold pretty, pretty_N. rewrite decide_False by done.
  set (x := N.pos p). assert (Hx : Z.of_N x = Z.pos p) by done.
  assert (H0 : (1000 <= x < 10000)%N) by lia.
  assert (H1 : (100 <= x / 10 < 1000)%N).
  { split; [apply N.div_le_lower_bound; lia|apply N.Div0.div_lt_upper_bound; lia]. }
  assert (H2 : (10 <= x / 10 / 10 < 100)%N).
  { split; [apply N.div_le_lower_bound; lia|apply N.Div0.div_lt_upper_bound; lia]. }
  assert (H3 : (1 <= x / 10 / 10 / 10 < 10)%N).
  { split; [apply N.div_le_lower_bound; lia|apply N.Div0.div_lt_upper_bound; lia]. }
  assert (H4 : (x / 10 / 10 / 10 / 10 = 0)%N).
  { apply N.div_small. lia. }
  rewrite (pretty_N_go_step x) by lia.
  rewrite (pretty_N_go_step (x / 10)) by lia.
  rewrite (pretty_N_go_step (x / 10 / 10)) by lia.
  rewrite (pretty_N_go_step (x / 10 / 10 / 10)) by lia.
  rewrite H4, pretty_N_go_0.
  rewrite (N.mod_small (x / 10 / 10 / 10) 10) by lia.
  rewrite !pretty_N_char_digit_char by (apply N.mod_lt || lia; lia).
  cbn [String.length Nat.sub zeros]. change ("" +:+ ?s) with s.
  rewrite !N2Z.inj_mod, !N2Z.inj_div, Hx. change (Z.of_N 10) with 10.
  rewrite !Z.div_div by lia. reflexivity.
Qed.

Lemma digit_char_inj (a b : Z) :
  0 <= a <= 9 -> 0 <= b <= 9 -> digit_char a = digit_char b -> a = b.
Proof.
  intros Ha Hb H. unfold digit_char in H.
  apply (f_equal N_of_ascii) in H.
  rewrite !N_ascii_embedding in H by lia. lia.
Qed.

(** The timestamp spelled out character by character. *)
Lemma strftime_digits (t : datetime) :
  valid_datetime t ->
  strftime t =
  String (digit_char (year t / 1000)) (String (digit_char (year t / 100 mod 10))
  (String (digit_char (year t / 10 mod 10)) (String (digit_char (year t mod 10))
  (String (digit_char (month t / 10)) (String (digit_char (month t mod 10))
  (String (digit_char (day t / 10)) (String (digit_char (day t mod 10))
  (String "_"
  (String (digit_char (hour t / 10)) (String (digit_char (hour t mod 10))
  (String (digit_char (minute t / 10)) (String (digit_char (minute t mod 10))
  (String (digit_char (second t / 10)) (String (digit_char (second t mod 10))
  "")))))))))))))).
Proof.
  intros (Hy & Hm & Hd & Hh & Hmi & Hs). unfold strftime.
  rewrite zfill4_digits by lia. rewrite !zfill2_digits by lia. reflexivity.
Qed.

(** X19: the timestamp of a valid instant has fifteen characters, and two
    valid instants with the same timestamp are the same instant to the second:
    runs in different seconds never share a landing file name. *)
Theorem timestamp_injective (t1 t2 : datetime) :
  valid_datetime t1 -> valid_datetime t2 ->
  String.length (strftime t1) = 15%nat
  /\ (target_file t1 = target_file t2 -> t1 = t2).
Proof.
  intros H1 H2. split.
  { by rewrite strftime_digits. }
  unfold target_file, joinpath, LANDING_DIR.
  rewrite !strftime_digits by done.
  destruct H1 as (Hy1 & Hm1 & Hd1 & Hh1 & Hmi1 & Hs1).
  destruct H2 as (Hy2 & Hm2 & Hd2 & Hh2 & Hmi2 & Hs2).
  intros Heq. simpl in Heq.
  injection Heq as Ey1 Ey2 Ey3 Ey4 Em1 Em2 Ed1 Ed2 Eh1 Eh2 Emi1 Emi2 Es1 Es2.
  apply digit_char_inj in Ey1, Ey2, Ey3, Ey4, Em1, Em2, Ed1, Ed2,
    Eh1, Eh2, Emi1, Emi2, Es1, Es2;
    try (Z.div_mod_to_equations; lia).
  destruct t1 as [y1 mo1 d1 h1 mi1 s1], t2 as [y2 mo2 d2 h2 mi2 s2].
  cbn [year month day hour minute second] in *.
  f_equal; Z.div_mod_to_equations; lia.
Qed.

Lemma timestamp_injective_witness :
  String.length (strftime demo_now) = 15%nat
  /\ (target_file demo_now = target_file (mk_datetime 2024 1 15 9 30 1) ->
      demo_now = mk_datetime 2024 1 15 9 30 1).
Proof.
  apply timestamp_injective; unfold valid_datetime; simpl; lia.
Defined.

(** * Further properties of the age test *)

Lemma strip_sign_eq (s : string) :
  match s with
  | String "+" s' => (1, s')
  | String "-" s' => (-1, s')
  | _ => (1, s)
  end = strip_sign s.
Proof.
  destruct s as [|c s]; [done|].
  destruct c as [[] [] [] [] [] [] [] []]; reflexivity.
Qed.

Lemma underscore_head_eq {A : Type} (s : string) (a b : A) :
  match s with
  | String "_" _ => a
  | _ => b
  end = match s with
        | EmptyString => b
        | String c _ => if is_underscore c then a else b
        end.
Proof.
  destruct s as [|c s]; [done|].
  destruct c as [[] [] [] [] [] [] [] []]; reflexivity.
Qed.

(** [PyLong_FromString] stage by stage. *)
Lemma PyLong_FromString_eq (max_str_digits : Z) (buf : string) :
  PyLong_FromString max_str_digits buf =
  let '(sign, s) := strip_sign (skip_space buf) in
  match s with
  | EmptyString => Raise ValueError
  | String c _ =>
      if is_underscore c then Raise ValueError
      else read_digits max_str_digits sign s
  end.
Proof.
  unfold PyLong_FromString. cbv zeta. rewrite strip_sign_eq.
  destruct (strip_sign (skip_space buf)) as [sign s].
  rewrite underscore_head_eq. destruct s as [|c s]; reflexivity.
Qed.

Lemma bad_char_inv (c : ascii) :
  bad_char c = true ->
  digit_value c = None /\ Ascii.eqb c "+" = false /\ Ascii.eqb c "-" = false
  /\ is_underscore c = false /\ Py_ISSPACE c = false.
Proof.
  unfold bad_char. rewrite negb_true_iff, !orb_false_iff.
  intros ((((Hd & Hp) & Hm) & Hu) & Hs). repeat split; try done.
  apply bool_decide_eq_false in Hd. destruct (digit_value c); [|done].
  destruct Hd. by eexists.
Qed.

Lemma skip_space_bad (s : string) :
  has_bad_char s = true -> has_bad_char (skip_space s) = true.
Proof.
  induction s as [|c s IH]; [done|]. cbn [skip_space has_bad_char].
  destruct (Py_ISSPACE c) eqn:Hs; [|done].
  destruct (bad_char c) eqn:Hb.
  - apply bad_char_inv in Hb as (_ & _ & _ & _ & Hs'). congruence.
  - exact IH.
Qed.

Lemma strip_sign_bad (s : string) :
  has_bad_char s = true -> has_bad_char (strip_sign s).2 = true.
Proof.
  destruct s as [|c s]; [done|]. cbn [strip_sign has_bad_char].
  destruct (bad_char c) eqn:Hb.
  - destruct (bad_char_inv c Hb) as (_ & -> & -> & _). intros _.
    cbn [snd has_bad_char]. by rewrite Hb.
  - destruct (Ascii.eqb c "+"); [done|]. destruct (Ascii.eqb c "-"); [done|].
    cbn [snd has_bad_char]. by rewrite Hb.
Qed.

Lemma scan_digits_bad (s : string) (prev : ascii) (acc digits : Z) :
  has_bad_char s = true ->
  scan_digits prev acc digits s = Raise ValueError
  \/ exists a d rest, scan_digits prev acc digits s = Ok (a, d, rest)
                      /\ has_bad_char rest = true.
Proof.
  revert prev acc digits. induction s as [|c s IH]; intros prev acc digits; [done|].
  cbn [has_bad_char scan_digits]. intros Hb.
  destruct (is_underscore c) eqn:Hu.
  - assert (Hc : bad_char c = false).
    { unfold bad_char. rewrite Hu. by rewrite !orb_true_r. }
    rewrite Hc in Hb. destruct (is_underscore prev); [by left|by apply IH].
  - destruct (digit_value c) as [d|] eqn:Hd.
    + assert (Hc : bad_char c = false).
      { unfold bad_char. rewrite Hd. rewrite bool_decide_eq_true_2 by by eexists. done. }
      rewrite Hc in Hb. by apply IH.
    + destruct (is_underscore prev); [by left|].
      right. exists acc, digits, (String c s). split; [done|exact Hb].
Qed.

Lemma read_digits_bad (max_str_digits sign : Z) (s : string) :
  has_bad_char s = true -> read_digits max_str_digits sign s = Raise ValueError.
Proof.
  intros Hb. unfold read_digits.
  destruct (scan_digits_bad s zero 0 0 Hb) as [-> | (a & d & rest & -> & Hr)]; [done|].
  simpl. destruct (_ && _); [done|]. destruct (d =? 0); [done|].
  apply skip_space_bad in Hr. by destruct (skip_space rest).
Qed.

Lemma PyLong_FromString_bad (max_str_digits : Z) (buf : string) :
  has_bad_char buf = true -> PyLong_FromString max_str_digits buf = Raise ValueError.
Proof.
  intros Hb. rewrite PyLong_FromString_eq.
  apply skip_space_bad, strip_sign_bad in Hb.
  destruct (strip_sign (skip_space buf)) as [sign s]. cbn [snd] in Hb.
  destruct s as [|c s]; [done|]. destruct (is_underscore c); [done|].
  by apply read_digits_bad.
Qed.

Lemma foreign_has_bad (s : string) :
  has_foreign_char s = true -> has_bad_char s = true.
Proof.
  induction s as [|c s IH]; [done|]. cbn [has_foreign_char has_bad_char].
  unfold foreign_char. destruct (bad_char c); [done|]. exact IH.
Qed.

Lemma transform_chars_bad (s : string) :
  has_foreign_char s = true -> has_bad_char (transform_chars s) = true.
Proof.
  induction s as [|c s IH]; [done|]. cbn [has_foreign_char transform_chars].
  destruct (code c <? 127) eqn:Hlow.
  - cbn [has_bad_char]. unfold foreign_char.
    destruct (bad_char c); [done|]. exact IH.
  - destruct (Py_UNICODE_ISSPACE c) eqn:Hsp; [|done].
    unfold foreign_char. rewrite Hsp.
    assert (Hge : (127 <=? code c) = true) by lia. rewrite Hge.
    rewrite andb_false_r. cbn [has_bad_char orb]. 
    intros H. rewrite (IH H). by rewrite orb_true_r.
Qed.

Lemma py_int_foreign (max_str_digits : Z) (s : string) :
  has_foreign_char s = true -> py_int max_str_digits (VStr s) = Raise ValueError.
Proof.
  intros Hf. cbn [py_int]. apply PyLong_FromString_bad.
  unfold transform_decimal_and_space.
  destruct (is_ascii s); [by apply foreign_has_bad|by apply transform_chars_bad].
Qed.

(** X20: an [age] text that holds a character other than a decimal digit, a
    sign, an underscore or white space is no integer literal: [int] raises
    [ValueError], whatever else the text holds, and the row is counted as
    underage. *)
Theorem foreign_age_counted (max_str_digits : Z) (st : locals) (r : row)
    (s : string) :
  r !! "age" = Some (VStr s) -> has_foreign_char s = true ->
  py_int max_str_digits (VStr s) = Raise ValueError
  /\ exists st', loop_body max_str_digits st r = Ok st'
       /\ underage (l_issues st') = underage (l_issues st) + 1.
Proof.
  intros Hr Hf. pose proof (py_int_foreign max_str_digits s Hf) as Hint.
  split; [done|]. rewrite loop_body_eq. unfold dict_get_default.
  rewrite Hr. simpl default. rewrite Hint. cbv zeta.
  eexists. split; [reflexivity|]. cbn [l_issues incr_underage underage].
  unfold after_id_and_name. by destruct (name_blank r), (bool_decide _).
Qed.

Lemma foreign_age_counted_witness :
  py_int 4300 (VStr "42.0") = Raise ValueError
  /\ exists st', loop_body 4300 fresh_locals
                   {[ "customer_id" := VStr "9"; "name" := VStr "Cy";
                      "age" := VStr "42.0" ]} = Ok st'
       /\ underage (l_issues st') = underage (l_issues fresh_locals) + 1.
Proof.
  apply foreign_age_counted; vm_compute; reflexivity.
Defined.

Lemma digit_value_range (c : ascii) (d : Z) :
  digit_value c = Some d -> 48 <= code c <= 57 /\ d = code c - 48.
Proof.
  unfold digit_value. cbv zeta.
  destruct ((48 <=? code c) && (code c <=? 57)) eqn:H; [|done].
  intros [= <-]. lia.
Qed.

Lemma digit_plain (c : ascii) (d : Z) :
  digit_value c = Some d ->
  is_underscore c = false /\ Py_ISSPACE c = false
  /\ Ascii.eqb c "+" = false /\ Ascii.eqb c "-" = false
  /\ (code c <? 127) = true.
Proof.
  intros [Hc _]%digit_value_range. unfold is_underscore, Py_ISSPACE. cbv zeta.
  repeat split; try lia.
  - destruct (Ascii.eqb c "+") eqn:E; [|done].
    apply Ascii.eqb_eq in E as ->. change (code "+") with 43 in Hc. lia.
  - destruct (Ascii.eqb c "-") eqn:E; [|done].
    apply Ascii.eqb_eq in E as ->. change (code "-") with 45 in Hc. lia.
Qed.

Lemma all_digits_cons (c : ascii) (s : string) :
  all_digits (String c s) = true ->
  exists d, digit_value c = Some d /\ all_digits s = true.
Proof.
  cbn [all_digits]. intros [Hc Hs]%andb_prop.
  apply bool_decide_eq_true in Hc as [d Hd]. by exists d.
Qed.

Lemma scan_all_digits (s : string) (prev : ascii) (acc digits : Z) :
  all_digits s = true -> is_underscore prev = false ->
  scan_digits prev acc digits s
  = Ok (digits_value acc s, digits + Z.of_nat (String.length s), "").
Proof.
  revert prev acc digits. induction s as [|c s IH]; intros prev acc digits Hs Hp.
  - cbn [scan_digits digits_value String.length]. rewrite Hp.
    do 3 f_equal. lia.
  - apply all_digits_cons in Hs as (d & Hd & Hs).
    destruct (digit_plain c d Hd) as (Hu & _).
    cbn [scan_digits digits_value String.length]. rewrite Hu, Hd.
    rewrite IH by done. simpl default. do 3 f_equal. lia.
Qed.

Lemma transform_all_low (s : string) :
  forallb (fun c => code c <? 127) (list_ascii_of_string s) = true ->
  transform_decimal_and_space s = s.
Proof.
  intros H. unfold transform_decimal_and_space. destruct (is_ascii s); [done|].
  induction s as [|c s IH]; [done|]. cbn [list_ascii_of_string forallb] in H.
  apply andb_prop in H as [Hc Hs]. cbn [transform_chars]. rewrite Hc.
  by rewrite IH.
Qed.

Lemma all_digits_low (s : string) :
  all_digits s = true ->
  forallb (fun c => code c <? 127) (list_ascii_of_string s) = true.
Proof.
  induction s as [|c s IH]; [done|]. intros (d & Hd & Hs)%all_digits_cons.
  cbn [list_ascii_of_string forallb].
  destruct (digit_plain c d Hd) as (_ & _ & _ & _ & ->). by apply IH.
Qed.

(** [int] on an unsigned digit string of at most 640 digits. *)
Lemma PyLong_FromString_digits (max_str_digits : Z) (s : string) :
  all_digits s = true -> s <> "" -> Z.of_nat (String.length s) <= 640 ->
  PyLong_FromString max_str_digits s = Ok (digits_value 0 s).
Proof.
  intros Hs Hne Hlen. rewrite PyLong_FromString_eq.
  destruct s as [|c s]; [done|].
  pose proof Hs as (d & Hd & _)%all_digits_cons.
  destruct (digit_plain c d Hd) as (Hu & Hsp & Hplus & Hminus & _).
  cbn [skip_space]. rewrite Hsp. cbn [strip_sign]. rewrite Hplus, Hminus, Hu.
  unfold read_digits. rewrite scan_all_digits by done.
  cbn [mbind result_bind]. 
  unfold MAX_STR_DIGITS_THRESHOLD.
  set (n := 0 + Z.of_nat (String.length (String c s))).
  assert (Hn : 0 < n <= 640) by (subst n; cbn [String.length] in *; lia).
  assert (H1 : (640 <? n) = false) by (apply Z.ltb_ge; lia).
  assert (H2 : (n =? 0) = false) by (apply Z.eqb_neq; lia).
  rewrite H1, H2. cbn [andb].
  cbn [skip_space]. f_equal; lia.
Qed.

(** The same with a minus sign in front. *)
Lemma PyLong_FromString_minus_digits (max_str_digits : Z) (s : string) :
  all_digits s = true -> s <> "" -> Z.of_nat (String.length s) <= 640 ->
  PyLong_FromString max_str_digits (String "-" s) = Ok (- digits_value 0 s).
Proof.
  intros Hs Hne Hlen. rewrite PyLong_FromString_eq.
  destruct s as [|c s]; [done|].
  pose proof Hs as (d & Hd & _)%all_digits_cons.
  destruct (digit_plain c d Hd) as (Hu & _).
  change (skip_space (String "-" (String c s))) with (String "-" (String c s)).
  change (strip_sign (String "-" (String c s))) with (-1, String c s).
  cbv beta iota. rewrite Hu.
  unfold read_digits. rewrite scan_all_digits by done.
  cbn [mbind result_bind].
  unfold MAX_STR_DIGITS_THRESHOLD.
  set (n := 0 + Z.of_nat (String.length (String c s))).
  assert (Hn : 0 < n <= 640) by (subst n; cbn [String.length] in *; lia).
  assert (H1 : (640 <? n) = false) by (apply Z.ltb_ge; lia).
  assert (H2 : (n =? 0) = false) by (apply Z.eqb_neq; lia).
  rewrite H1, H2. cbn [andb].
  cbn [skip_space]. f_equal; lia.
Qed.

Lemma all_digits_snoc (s : string) (c : ascii) :
  all_digits s = true -> is_Some (digit_value c) ->
  all_digits (s +:+ String c "") = true.
Proof.
  intros Hs Hc. induction s as [|c' s IH].
  - change (all_digits (String c "") = true). cbn [all_digits].
    by rewrite bool_decide_eq_true_2.
  - apply all_digits_cons in Hs as (d & Hd & Hs).
    change (String c' s +:+ String c "") with (String c' (s +:+ String c "")).
    cbn [all_digits]. rewrite Hd, IH by done.
    by rewrite bool_decide_eq_true_2.
Qed.

Lemma digits_value_snoc (s : string) (c : ascii) (acc : Z) :
  digits_value acc (s +:+ String c "")
  = 10 * digits_value acc s + default 0 (digit_value c).
Proof.
  revert acc. induction s as [|c' s IH]; intros acc; [done|].
  change (String c' s +:+ String c "") with (String c' (s +:+ String c "")).
  cbn [digits_value]. apply IH.
Qed.

Lemma length_snoc (s : string) (c : ascii) :
  String.length (s +:+ String c "") = S (String.length s).
Proof.
  induction s as [|c' s IH]; [done|].
  change (String c' s +:+ String c "") with (String c' (s +:+ String c "")).
  cbn [String.length]. by rewrite IH.
Qed.

Lemma append_snoc (a : string) (c : ascii) (s : string) :
  a +:+ String c s = (a +:+ String c "") +:+ s.
Proof.
  induction a as [|c' a IH]; [done|].
  change (String c' (a +:+ String c s) = String c' ((a +:+ String c "") +:+ s)).
  by rewrite IH.
Qed.

Lemma pretty_N_char_digit (x : N) :
  (x < 10)%N -> digit_value (pretty_N_char x) = Some (Z.of_N x).
Proof.
  intros Hx.
  assert (x = 0 \/ x = 1 \/ x = 2 \/ x = 3 \/ x = 4 \/ x = 5 \/ x = 6
          \/ x = 7 \/ x = 8 \/ x = 9)%N as Hcases by lia.
  repeat (destruct Hcases as [->|Hcases]; [reflexivity|]). by subst.
Qed.

(** The digits [pretty] writes for a natural number. *)
Lemma pretty_N_go_spec (x : N) :
  exists ds : string,
    (forall s, pretty_N_go x s = ds +:+ s)
    /\ all_digits ds = true
    /\ digits_value 0 ds = Z.of_N x
    /\ (x = 0%N -> ds = "")
    /\ ((0 < x)%N -> ds <> "" /\ 10 ^ Z.of_nat (String.length ds) <= 10 * Z.of_N x).
Proof.
  induction (N.lt_wf_0 x) as [x _ IH].
  destruct (decide (x = 0%N)) as [->|Hx].
  { exists "". repeat split; try done; lia. }
  assert (Hpos : (0 < x)%N) by lia.
  destruct (IH (x `div` 10)%N) as (ds & Hgo & Hall & Hval & Hzero & Hlen).
  { by apply N.div_lt. }
  pose proof (N.div_mod x 10 ltac:(lia)) as Hdm.
  pose proof (N.mod_lt x 10 ltac:(lia)) as Hmod.
  pose proof (pretty_N_char_digit _ Hmod) as Hc.
  exists (ds +:+ String (pretty_N_char (x `mod` 10)) "").
  split; [|split; [|split; [|split]]].
  - intros s. rewrite pretty_N_go_step by done. rewrite Hgo. apply append_snoc.
  - apply all_digits_snoc; [done|by eexists].
  - rewrite digits_value_snoc, Hval, Hc. simpl default. lia.
  - lia.
  - intros _. split.
    + by destruct ds.
    + rewrite length_snoc, Nat2Z.inj_succ, Z.pow_succ_r by lia.
      destruct (decide (x `div` 10 = 0)%N) as [Hq|Hq].
      * rewrite (Hzero Hq). cbn [String.length]. lia.
      * destruct Hlen as [_ Hlen]; [lia|].
        clear -Hlen Hdm.
        generalize dependent (10 ^ Z.of_nat (String.length ds)).
        generalize dependent (x `div` 10)%N. generalize dependent (x `mod` 10)%N.
        intros. lia.
Qed.

(** [int(str(n))] is [n], for [n] of at most 640 digits. *)
Lemma py_int_pretty (max_str_digits n : Z) :
  - 10 ^ 640 < n < 10 ^ 640 ->
  py_int max_str_digits (VStr (pretty n)) = Ok n.
Proof.
  intros Hn. cbn [py_int].
  assert (Hpos : forall p : positive, Z.pos p < 10 ^ 640 ->
            exists ds, pretty (N.pos p) = ds /\ all_digits ds = true /\ ds <> ""
                       /\ digits_value 0 ds = Z.pos p
                       /\ Z.of_nat (String.length ds) <= 640).
  { intros p Hp.
    destruct (pretty_N_go_spec (N.pos p)) as (ds & Hgo & Hall & Hval & _ & Hlen).
    destruct Hlen as [Hne Hlen]; [lia|].
    exists ds. unfold pretty, pretty_N. rewrite decide_False by done.
    rewrite Hgo, append_empty_r. repeat split; try done.
    assert (Hlt : 10 ^ Z.of_nat (String.length ds) < 10 ^ 641).
    { change (10 ^ 641) with (10 * 10 ^ 640). lia. }
    apply Z.pow_lt_mono_r_iff in Hlt; lia. }
  destruct n as [|p|p].
  - reflexivity.
  - destruct (Hpos p) as (ds & Hds & Hall & Hne & Hval & Hlen); [lia|].
    change (pretty (Z.pos p)) with (pretty (N.pos p)). rewrite Hds.
    rewrite transform_all_low by by apply all_digits_low.
    rewrite PyLong_FromString_digits by done. by rewrite Hval.
  - destruct (Hpos p) as (ds & Hds & Hall & Hne & Hval & Hlen); [lia|].
    change (pretty (Z.neg p)) with (String "-" (pretty (N.pos p))). rewrite Hds.
    rewrite transform_all_low.
    + rewrite PyLong_FromString_minus_digits by done. rewrite Hval. done.
    + cbn [list_ascii_of_string forallb]. by rewrite all_digits_low.
Qed.

(** X21: an [age] that is the decimal numeral of an integer [n] (of at most
    640 digits, the length up to which [int] sets no limit) is read back as
    [n]: the row is counted as underage exactly when [n < 18]. *)
Theorem numeral_age_read (max_str_digits : Z) (st : locals) (r : row) (n : Z) :
  r !! "age" = Some (VStr (pretty n)) -> - 10 ^ 640 < n < 10 ^ 640 ->
  py_int max_str_digits (VStr (pretty n)) = Ok n
  /\ exists st', loop_body max_str_digits st r = Ok st'
       /\ underage (l_issues st')
          = underage (l_issues st) + (if n <? 18 then 1 else 0).
Proof.
  intros Hr Hn. pose proof (py_int_pretty max_str_digits n Hn) as Hint.
  split; [done|]. rewrite loop_body_eq. unfold dict_get_default.
  rewrite Hr. simpl default. rewrite Hint. cbv zeta.
  assert (Hu : underage (l_issues (after_id_and_name st r)) = underage (l_issues st)).
  { unfold after_id_and_name. by destruct (name_blank r), (bool_decide _). }
  destruct (n <? 18); eexists; (split; [reflexivity|]);
    cbn [l_issues incr_underage underage]; rewrite Hu; lia.
Qed.

Lemma numeral_age_read_witness :
  py_int 4300 (VStr (pretty 17)) = Ok 17
  /\ exists st', loop_body 4300 fresh_locals
                   {[ "customer_id" := VStr "9"; "name" := VStr "Cy";
                      "age" := VStr "17" ]} = Ok st'
       /\ underage (l_issues st')
          = underage (l_issues fresh_locals) + (if 17 <? 18 then 1 else 0).
Proof.
  apply numeral_age_read; [vm_compute; reflexivity|].
  pose proof (Z.pow_gt_lin_r 10 640). lia.
Defined.

Lemma space_not_plain (c : ascii) :
  Py_ISSPACE c = true ->
  digit_value c = None /\ is_underscore c = false
  /\ Ascii.eqb c "+" = false /\ Ascii.eqb c "-" = false.
Proof.
  unfold Py_ISSPACE, digit_value, is_underscore. cbv zeta. intros Hs.
  repeat split.
  - destruct ((48 <=? code c) && (code c <=? 57)) eqn:H; [lia|done].
  - lia.
  - destruct (Ascii.eqb c "+") eqn:E; [|done].
    apply Ascii.eqb_eq in E as ->. change (code "+") with 43 in Hs. lia.
  - destruct (Ascii.eqb c "-") eqn:E; [|done].
    apply Ascii.eqb_eq in E as ->. change (code "-") with 45 in Hs. lia.
Qed.

Lemma skip_space_all (b : string) :
  all_Py_ISSPACE b = true -> skip_space b = "".
Proof.
  induction b as [|c b IH]; [done|]. cbn [all_Py_ISSPACE skip_space].
  intros [-> Hb]%andb_prop. by apply IH.
Qed.

Lemma skip_space_lead (a t : string) :
  all_Py_ISSPACE a = true -> skip_space (a +:+ t) = skip_space t.
Proof.
  induction a as [|c a IH]; [done|]. cbn [all_Py_ISSPACE].
  intros [Hc Ha]%andb_prop.
  change (String c a +:+ t) with (String c (a +:+ t)).
  cbn [skip_space]. rewrite Hc. by apply IH.
Qed.

Lemma skip_space_trail (t b : string) :
  all_Py_ISSPACE b = true ->
  skip_space (t +:+ b) = match skip_space t with
                         | EmptyString => EmptyString
                         | u => u +:+ b
                         end.
Proof.
  intros Hb. induction t as [|c t IH].
  - change ("" +:+ b) with b. by rewrite skip_space_all.
  - change (String c t +:+ b) with (String c (t +:+ b)). cbn [skip_space].
    destruct (Py_ISSPACE c); [exact IH|reflexivity].
Qed.

Lemma scan_digits_trail (t b : string) (prev : ascii) (acc digits : Z) :
  all_Py_ISSPACE b = true ->
  scan_digits prev acc digits (t +:+ b)
  = match scan_digits prev acc digits t with
    | Ok (a, d, rest) => Ok (a, d, rest +:+ b)
    | Raise e => Raise e
    end.
Proof.
  intros Hb. revert prev acc digits.
  induction t as [|c t IH]; intros prev acc digits.
  - change ("" +:+ b) with b.
    destruct b as [|c b]; [cbn [scan_digits]; by destruct (is_underscore prev)|].
    cbn [all_Py_ISSPACE] in Hb. apply andb_prop in Hb as [Hc _].
    destruct (space_not_plain c Hc) as (Hd & Hu & _).
    cbn [scan_digits]. rewrite Hu, Hd. by destruct (is_underscore prev).
  - change (String c t +:+ b) with (String c (t +:+ b)). cbn [scan_digits].
    destruct (is_underscore c).
    + destruct (is_underscore prev); [done|apply IH].
    + destruct (digit_value c); [apply IH|].
      by destruct (is_underscore prev).
Qed.

Lemma read_digits_trail (max_str_digits sign : Z) (t b : string) :
  all_Py_ISSPACE b = true ->
  read_digits max_str_digits sign (t +:+ b) = read_digits max_str_digits sign t.
Proof.
  intros Hb. unfold read_digits. rewrite scan_digits_trail by done.
  destruct (scan_digits zero 0 0 t) as [[[a d] rest]|e]; [|done].
  cbn [mbind result_bind]. destruct (_ && _); [done|].
  destruct (d =? 0); [done|]. rewrite skip_space_trail by done.
  destruct (skip_space rest) as [|c u]; done.
Qed.

(** [PyLong_FromString] skips the white space on both sides. *)
Lemma PyLong_FromString_pad (max_str_digits : Z) (a t b : string) :
  all_Py_ISSPACE a = true -> all_Py_ISSPACE b = true ->
  PyLong_FromString max_str_digits (a +:+ t +:+ b)
  = PyLong_FromString max_str_digits t.
Proof.
  intros Ha Hb. rewrite !PyLong_FromString_eq.
  rewrite skip_space_lead, skip_space_trail by done.
  destruct (skip_space t) as [|c u] eqn:Ht; [done|].
  change (String c u +:+ b) with (String c (u +:+ b)).
  cbn [strip_sign].
  assert (Hempty : forall sg, match b with
            | EmptyString => Raise ValueError
            | String c0 _ => if is_underscore c0 then Raise ValueError
                             else read_digits max_str_digits sg b
            end = Raise ValueError).
  { intros sg. destruct b as [|c0 b0]; [done|].
    assert (Hc0 : Py_ISSPACE c0 = true).
    { cbn [all_Py_ISSPACE] in Hb. by apply andb_prop in Hb as [? _]. }
    destruct (space_not_plain c0 Hc0) as (_ & -> & _).
    change (String c0 b0) with ("" +:+ String c0 b0).
    by rewrite read_digits_trail. }
  assert (Hrest : forall sg v, match v +:+ b with
            | EmptyString => Raise ValueError
            | String c0 _ => if is_underscore c0 then Raise ValueError
                             else read_digits max_str_digits sg (v +:+ b)
            end = match v with
                  | EmptyString => Raise ValueError
                  | String c0 _ => if is_underscore c0 then Raise ValueError
                                   else read_digits max_str_digits sg v
                  end).
  { intros sg [|c0 v].
    - change ("" +:+ b) with b. apply Hempty.
    - change (String c0 v +:+ b) with (String c0 (v +:+ b)). cbv beta iota.
      destruct (is_underscore c0); [done|].
      change (String c0 (v +:+ b)) with (String c0 v +:+ b).
      by apply read_digits_trail. }
  destruct (Ascii.eqb c "+"); [apply Hrest|].
  destruct (Ascii.eqb c "-"); [apply Hrest|].
  apply (Hrest 1 (String c u)).
Qed.

Lemma nonforeign_char (c : ascii) :
  foreign_char c = false ->
  (if code c <? 127 then true else Py_UNICODE_ISSPACE c && (128 <=? code c)) = true.
Proof.
  destruct c as [[] [] [] [] [] [] [] []]; vm_compute; intros H;
    first [reflexivity | discriminate H].
Qed.

Lemma int_blank_char (c : ascii) :
  int_blank c = true -> foreign_char c = false /\ Py_ISSPACE (to_ascii c) = true.
Proof.
  destruct c as [[] [] [] [] [] [] [] []]; vm_compute; intros H;
    first [discriminate H | split; reflexivity].
Qed.

Lemma map_string_app (f : ascii -> ascii) (a s : string) :
  map_string f (a +:+ s) = map_string f a +:+ map_string f s.
Proof.
  induction a as [|c a IH]; [done|].
  change (String c a +:+ s) with (String c (a +:+ s)). cbn [map_string].
  by rewrite IH.
Qed.

Lemma has_foreign_char_app (a s : string) :
  has_foreign_char (a +:+ s) = has_foreign_char a || has_foreign_char s.
Proof.
  induction a as [|c a IH]; [done|].
  change (String c a +:+ s) with (String c (a +:+ s)). cbn [has_foreign_char].
  by rewrite IH, orb_assoc.
Qed.

Lemma all_int_blank_plain (a : string) :
  all_int_blank a = true ->
  has_foreign_char a = false /\ all_Py_ISSPACE (map_string to_ascii a) = true.
Proof.
  induction a as [|c a IH]; [done|]. cbn [all_int_blank].
  intros [Hc Ha]%andb_prop. destruct (IH Ha) as [IH1 IH2].
  destruct (int_blank_char c Hc) as [Hf Hs].
  cbn [has_foreign_char map_string all_Py_ISSPACE]. by rewrite Hf, IH1, Hs, IH2.
Qed.

(** On a text without foreign character the transformation works character
    by character. *)
Lemma transform_nonforeign (s : string) :
  has_foreign_char s = false ->
  transform_decimal_and_space s = map_string to_ascii s.
Proof.
  intros Hs. unfold transform_decimal_and_space.
  destruct (is_ascii s) eqn:Hascii.
  - unfold is_ascii in Hascii. induction s as [|c s IH]; [done|].
    cbn [has_foreign_char] in Hs. apply orb_false_elim in Hs as [Hc Hs].
    cbn [list_ascii_of_string forallb] in Hascii.
    apply andb_prop in Hascii as [Hlow Hascii].
    apply nonforeign_char in Hc. cbn [map_string]. unfold to_ascii at 1.
    destruct (code c <? 127); [by rewrite <- IH|].
    apply andb_prop in Hc as [_ Hc]. lia.
  - clear Hascii. induction s as [|c s IH]; [done|].
    cbn [has_foreign_char] in Hs. apply orb_false_elim in Hs as [Hc Hs].
    apply nonforeign_char in Hc. cbn [map_string transform_chars]. unfold to_ascii at 1.
    destruct (code c <? 127); [by rewrite IH|].
    apply andb_prop in Hc as [-> _]. by rewrite IH.
Qed.

(** [int] skips the white space around a literal. *)
Lemma py_int_pad (max_str_digits : Z) (a s b : string) :
  all_int_blank a = true -> all_int_blank b = true ->
  py_int max_str_digits (VStr (a +:+ s +:+ b)) = py_int max_str_digits (VStr s).
Proof.
  intros [Hfa Ha]%all_int_blank_plain [Hfb Hb]%all_int_blank_plain.
  destruct (has_foreign_char s) eqn:Hs.
  - rewrite !py_int_foreign; [done..|].
    by rewrite !has_foreign_char_app, Hs, orb_true_r.
  - cbn [py_int]. rewrite !transform_nonforeign.
    + rewrite !map_string_app. by apply PyLong_FromString_pad.
    + done.
    + by rewrite !has_foreign_char_app, Hfa, Hs, Hfb.
Qed.

(** X22: white space around an age does not count either: a row whose [age]
    text is padded on either side with characters [int] takes for blanks goes
    through the iteration as the unpadded row does. *)
Theorem age_padding_ignored (max_str_digits : Z) (st : locals) (r : row)
    (a s b : string) :
  r !! "age" = Some (VStr s) ->
  all_int_blank a = true -> all_int_blank b = true ->
  loop_body max_str_digits st (<["age" := VStr (a +:+ s +:+ b)]> r)
  = loop_body max_str_digits st r.
Proof.
  intros Hr Ha Hb. rewrite !loop_body_eq. unfold dict_get_default.
  rewrite lookup_insert_eq, Hr. simpl default. rewrite py_int_pad by done.
  assert (Hsame : after_id_and_name st (<["age" := VStr (a +:+ s +:+ b)]> r)
                  = after_id_and_name st r).
  { unfold after_id_and_name, name_blank, trimmed_name, trimmed_id, text_or_empty.
    by rewrite !lookup_insert_ne by done. }
  by rewrite Hsame.
Qed.

Lemma age_padding_ignored_witness :
  loop_body 4300 fresh_locals
    (<["age" := VStr (" " +:+ "17" +:+ "  ")]>
       {[ "customer_id" := VStr "7"; "name" := VStr "Bo"; "age" := VStr "17" ]})
  = loop_body 4300 fresh_locals
      {[ "customer_id" := VStr "7"; "name" := VStr "Bo"; "age" := VStr "17" ]}.
Proof.
  apply age_padding_ignored; [vm_compute; reflexivity|reflexivity..].
Defined.

(** * When a run completes *)














